(** * guardduty-to-slack: a shallow embedding of [main.go]

    The development follows the layout of the Go source: configuration
    ([BuildConfig]), the finding model and its severity classifier
    ([Finding], [ToSeverityLevel]), the parser ([ParseFindingData]), the
    notifier ([CreateThread]), the dispatcher ([Process]) and the sample
    replay ([ProcessSamples]).

    Go values are modelled as follows.
    - [string] is a Go string (a sequence of bytes).
    - [float64] is an IEEE 754 binary64 datum, taken from the Standard
      Library's [spec_float] at precision 53 and maximal exponent 1024;
      the comparisons [<] and [<=] of Go are [SFltb] and [SFleb].
    - an [error] is [option error_value], [None] being Go's [nil].
    - a function returning [(T, error)] returns a pair.
    - the process environment is a finite map from names to values.
    - the Slack API and the standard logger are the only effects: they are
      threaded through a small state monad over [World]. *)

From Stdlib Require Import ZArith QArith Lia Lqa SpecFloat Ascii String.
From stdpp Require Import base strings list gmap.

Set Warnings "-register-all".

Open Scope string_scope.
Open Scope list_scope.

(* ------------------------------------------------------------------------ *)
(** ** float64 *)

Module Float64.

Definition prec : Z := 53.
Definition emax : Z := 1024.

Definition float64 : Type := spec_float.

(** A datum is a binary64 value when its mantissa is canonical and its
    exponent is in range. *)
Definition valid (x : float64) : bool := valid_binary prec emax x.

Definition ltb (x y : float64) : bool := SFltb x y.
Definition leb (x y : float64) : bool := SFleb x y.

(** The zero value of a Go [float64]. *)
Definition zero : float64 := S754_zero false.

(** The integer [z], for [|z| < 2^53], as a binary64 datum. *)
Definition of_Z (z : Z) : float64 :=
  binary_normalize prec emax z 0 false.

(** The binary64 datum nearest to the decimal [10.0001], which is
    [0x1.4000d1b71758ep+3]. *)
Definition f10_0001 : float64 := S754_finite false 5629555829208462 (-49).

(** The binary64 datum [9.5]. *)
Definition f9_5 : float64 := S754_finite false 5348024557502464 (-49).

Definition is_finite (x : float64) : bool :=
  match x with
  | S754_zero _ | S754_finite _ _ _ => true
  | _ => false
  end.

(** The exact value of a finite datum, scaled by [2^1074] so that it is
    an integer: [scaled x = x * 2^1074]. *)
Definition scaled (x : float64) : Z :=
  match x with
  | S754_finite s m e => cond_Zopp s (Zpos m * 2 ^ (e + 1074))
  | _ => 0
  end.

(** The rational number denoted by a finite datum. *)
Definition to_Q (x : float64) : Q := Qmake (scaled x) (2 ^ 1074).

End Float64.

Import Float64.

(* ------------------------------------------------------------------------ *)
(** ** Errors *)

(** The error values this program can observe.  [errors_New] is
    [errors.New]; [SyntaxError] and [UnmarshalTypeError] are the two
    errors of [encoding/json] ([Value] is the description of the JSON value
    and [Field] the name of the struct field it was destined for);
    [ClientError] is any error reported by the Slack client or by the file
    system; [wrapError msg err] is [fmt.Errorf(msg + "%w", err)]. *)
Inductive error_value : Type :=
| errors_New (text : string)
| SyntaxError
| UnmarshalTypeError (Value Field : string)
| ClientError (text : string)
| wrapError (msg : string) (err : error_value).

Definition error : Type := option error_value.
Definition nil : error := None.

(** [fmt.Sprintf], restricted to the [%s] verb. *)
Fixpoint Sprintf (format : string) (args : list string) : string :=
  match format with
  | EmptyString => ""
  | String "%"%char (String "s"%char rest) =>
      match args with
      | a :: args' => a ++ Sprintf rest args'
      | [] => "%!s(MISSING)" ++ Sprintf rest []
      end
  | String c rest => String c (Sprintf rest args)
  end.

(** [fmt.Errorf(format + "%w", args..., err)]: the format up to its final
    [%w] verb is rendered with [Sprintf], the error is wrapped. *)
Definition Errorf (format : string) (args : list string) (err : error_value)
  : error :=
  Some (wrapError (Sprintf format args) err).

(* ------------------------------------------------------------------------ *)
(** ** encoding/json *)

Module json.

(** A JSON value.  A number is represented by the [float64] that
    [strconv.ParseFloat] yields for its text, or by [NumberOutOfRange]
    with that text when [ParseFloat] rejects it (as for [1e999]).  The
    members of an object are kept in document order, duplicates
    included. *)
Inductive Value : Type :=
| Null
| Bool (b : bool)
| Number (f : float64)
| NumberOutOfRange (literal : string)
| Str (s : string)
| Array (elems : list Value)
| Object (members : list (string * Value)).

(** [json.RawMessage]: a byte slice, which either is the text of a JSON
    value or is not a text the decoder takes for JSON (the nil slice, the
    empty slice, a text with trailing data and a text nested deeper than
    the decoder allows are of the second kind). *)
Inductive RawMessage : Type :=
| RawJSON (v : Value)
| RawInvalid (bytes : string).

(** The description of a value in an [UnmarshalTypeError]. *)
Definition kind (v : Value) : string :=
  match v with
  | Null => "null"
  | Bool _ => "bool"
  | Number _ | NumberOutOfRange _ => "number"
  | Str _ => "string"
  | Array _ => "array"
  | Object _ => "object"
  end.

Definition is_lower (c : ascii) : bool :=
  let n := nat_of_ascii c in (97 <=? n)%nat && (n <=? 122)%nat.

Definition upper (c : ascii) : ascii :=
  if is_lower c then ascii_of_nat (nat_of_ascii c - 32) else c.

(** [foldName]: ASCII letters are upper-cased and a rune is replaced by
    the least rune of its simple-folding orbit.  The only runes outside
    ASCII whose orbit reaches ASCII are U+017F (long s, bytes C5 BF),
    which folds to [S], and U+212A (Kelvin sign, bytes E2 84 AA), which
    folds to [K].  Every other rune folds to a rune outside ASCII; a
    folded key is only ever compared with the folded name of a field,
    which is ASCII, so the bytes of such a rune are left as they are. *)
Fixpoint foldName (s : string) : string :=
  match s with
  | EmptyString => ""
  | String "197"%char (String "191"%char rest) =>
      String "S" (foldName rest)
  | String "226"%char (String "132"%char (String "170"%char rest)) =>
      String "K" (foldName rest)
  | String c rest => String (upper c) (foldName rest)
  end.

End json.

(* ------------------------------------------------------------------------ *)
(** ** Configuration *)

Record Config : Type := {
  DebugEnabled : bool;
  AwsConsoleURL : string;
  SlackToken : string;
  SlackChannel : string;
}.

(** [os.Getenv]: the value of the variable, or the empty string when the
    variable is not set. *)
Definition Getenv (env : gmap string string) (key : string) : string :=
  default "" (env !! key).

Definition BuildConfig (env : gmap string string) : Config * error :=
  let cfg := {|
    DebugEnabled := String.eqb (Getenv env "APP_DEBUG_ENABLED") "true";
    AwsConsoleURL := Getenv env "APP_AWS_CONSOLE_URL";
    SlackToken := Getenv env "APP_SLACK_TOKEN";
    SlackChannel := Getenv env "APP_SLACK_CHANNEL";
  |} in
  if String.eqb (SlackToken cfg) "" then
    (Build_Config false "" "" "", Some (errors_New "missing env var APP_SLACK_TOKEN"))
  else if String.eqb (SlackChannel cfg) "" then
    (Build_Config false "" "" "", Some (errors_New "missing env var APP_SLACK_CHANNEL"))
  else if String.eqb (AwsConsoleURL cfg) "" then
    (Build_Config false "" "" "", Some (errors_New "missing env var APP_AWS_CONSOLE_URL"))
  else (cfg, nil).

(* ------------------------------------------------------------------------ *)
(** ** Finding and the severity classifier *)

Definition SeverityLevel : Type := string.

Definition SeverityUnknown : SeverityLevel := "unknown".
Definition SeverityLow : SeverityLevel := "low".
Definition SeverityMedium : SeverityLevel := "medium".
Definition SeverityHigh : SeverityLevel := "high".
Definition SeverityCritical : SeverityLevel := "critical".

Record Finding : Type := {
  ID : string;
  AccountID : string;
  Region : string;
  Title : string;
  Description : string;
  Severity : float64;
  SeverityLabel : SeverityLevel;
  ConsoleURL : string;
  Raw : json.RawMessage;
}.

(** [Finding{}]. *)
Definition Finding_zero : Finding := {|
  ID := ""; AccountID := ""; Region := ""; Title := ""; Description := "";
  Severity := zero; SeverityLabel := ""; ConsoleURL := "";
  Raw := json.RawInvalid "";
|}.

Definition ToSeverityLevel (f : Finding) : SeverityLevel :=
  if ltb (Severity f) (of_Z 4) then SeverityLow
  else if ltb (Severity f) (of_Z 7) then SeverityMedium
  else if ltb (Severity f) (of_Z 9) then SeverityHigh
  else if leb (Severity f) (of_Z 10) then SeverityCritical
  else SeverityUnknown.

(* ------------------------------------------------------------------------ *)
(** ** Decoding a Finding: [json.Unmarshal(raw, &f)] *)

(** The fields of [Finding] that the decoder sees: [SeverityLabel] and
    [ConsoleURL] carry the tag [json:"-"] and are skipped; [Raw] has no tag
    and goes by its Go name. *)
Inductive field : Type :=
| field_id | field_accountId | field_region | field_title
| field_description | field_severity | field_Raw.

Definition field_name (fld : field) : string :=
  match fld with
  | field_id => "id"
  | field_accountId => "accountId"
  | field_region => "region"
  | field_title => "title"
  | field_description => "description"
  | field_severity => "severity"
  | field_Raw => "Raw"
  end.

Definition fields : list field :=
  [field_id; field_accountId; field_region; field_title; field_description;
   field_severity; field_Raw].

(** The field an object key denotes: the one whose name equals the key up
    to case folding (an exact match is a special case, since no two names
    of [Finding] fold to the same string). *)
Definition lookup_field (key : string) : option field :=
  List.find
    (fun fld => String.eqb (json.foldName (field_name fld)) (json.foldName key))
    fields.

Definition set_string (fld : field) (s : string) (f : Finding) : Finding :=
  match fld with
  | field_id =>
      {| ID := s; AccountID := AccountID f; Region := Region f;
         Title := Title f; Description := Description f;
         Severity := Severity f; SeverityLabel := SeverityLabel f;
         ConsoleURL := ConsoleURL f; Raw := Raw f |}
  | field_accountId =>
      {| ID := ID f; AccountID := s; Region := Region f;
         Title := Title f; Description := Description f;
         Severity := Severity f; SeverityLabel := SeverityLabel f;
         ConsoleURL := ConsoleURL f; Raw := Raw f |}
  | field_region =>
      {| ID := ID f; AccountID := AccountID f; Region := s;
         Title := Title f; Description := Description f;
         Severity := Severity f; SeverityLabel := SeverityLabel f;
         ConsoleURL := ConsoleURL f; Raw := Raw f |}
  | field_title =>
      {| ID := ID f; AccountID := AccountID f; Region := Region f;
         Title := s; Description := Description f;
         Severity := Severity f; SeverityLabel := SeverityLabel f;
         ConsoleURL := ConsoleURL f; Raw := Raw f |}
  | field_description =>
      {| ID := ID f; AccountID := AccountID f; Region := Region f;
         Title := Title f; Description := s;
         Severity := Severity f; SeverityLabel := SeverityLabel f;
         ConsoleURL := ConsoleURL f; Raw := Raw f |}
  | field_severity | field_Raw => f
  end.

Definition set_Severity (x : float64) (f : Finding) : Finding :=
  {| ID := ID f; AccountID := AccountID f; Region := Region f;
     Title := Title f; Description := Description f;
     Severity := x; SeverityLabel := SeverityLabel f;
     ConsoleURL := ConsoleURL f; Raw := Raw f |}.

Definition set_SeverityLabel (l : SeverityLevel) (f : Finding) : Finding :=
  {| ID := ID f; AccountID := AccountID f; Region := Region f;
     Title := Title f; Description := Description f;
     Severity := Severity f; SeverityLabel := l;
     ConsoleURL := ConsoleURL f; Raw := Raw f |}.

Definition set_ConsoleURL (u : string) (f : Finding) : Finding :=
  {| ID := ID f; AccountID := AccountID f; Region := Region f;
     Title := Title f; Description := Description f;
     Severity := Severity f; SeverityLabel := SeverityLabel f;
     ConsoleURL := u; Raw := Raw f |}.

Definition set_Raw (r : json.RawMessage) (f : Finding) : Finding :=
  {| ID := ID f; AccountID := AccountID f; Region := Region f;
     Title := Title f; Description := Description f;
     Severity := Severity f; SeverityLabel := SeverityLabel f;
     ConsoleURL := ConsoleURL f; Raw := r |}.

(** Storing one member's value into its field.  [null] leaves a string or
    a number untouched; a value of the wrong kind, or a number outside the
    range of [float64], is an [UnmarshalTypeError]; [Raw], being a
    [RawMessage], takes any value.  The [Field] of the error is the JSON
    name of the field, as the decoder of the Go release named in [go.mod]
    reports it; other releases report the key as the payload spells it, and
    the two agree when the key is spelled as the name. *)
Definition store (fld : field) (v : json.Value) (f : Finding)
  : Finding * error :=
  match fld with
  | field_Raw => (set_Raw (json.RawJSON v) f, nil)
  | field_severity =>
      match v with
      | json.Null => (f, nil)
      | json.Number x => (set_Severity x f, nil)
      | json.NumberOutOfRange literal =>
          (f, Some (UnmarshalTypeError ("number " ++ literal) (field_name fld)))
      | _ => (f, Some (UnmarshalTypeError (json.kind v) (field_name fld)))
      end
  | _ =>
      match v with
      | json.Null => (f, nil)
      | json.Str s => (set_string fld s f, nil)
      | _ => (f, Some (UnmarshalTypeError (json.kind v) (field_name fld)))
      end
  end.

(** The decoder keeps the first error it meets and goes on. *)
Definition saveError (saved err : error) : error :=
  match saved with
  | Some _ => saved
  | None => err
  end.

(** Decoding the members of an object, in document order; keys that denote
    no field are skipped. *)
Fixpoint object (members : list (string * json.Value)) (f : Finding)
    (saved : error) : Finding * error :=
  match members with
  | [] => (f, saved)
  | (key, v) :: rest =>
      match lookup_field key with
      | None => object rest f saved
      | Some fld =>
          let '(f', err) := store fld v f in
          object rest f' (saveError saved err)
      end
  end.

Definition Unmarshal (raw : json.RawMessage) (f : Finding) : Finding * error :=
  match raw with
  | json.RawInvalid _ => (f, Some SyntaxError)
  | json.RawJSON (json.Object members) => object members f nil
  | json.RawJSON json.Null => (f, nil)
  | json.RawJSON v => (f, Some (UnmarshalTypeError (json.kind v) ""))
  end.

(* ------------------------------------------------------------------------ *)
(** ** The Slack client *)

Module slack.

(** Values of the client library are represented by the calls that build
    them. *)
Record TextBlockObject : Type := NewTextBlockObject {
  elementType : string;
  text : string;
  emoji : bool;
  verbatim : bool;
}.

Record ButtonBlockElement : Type := {
  ActionID : string;
  Value : string;
  Text : option TextBlockObject;
  URL : string;
}.

Definition NewButtonBlockElement (actionID value : string)
    (text : option TextBlockObject) : ButtonBlockElement :=
  {| ActionID := actionID; Value := value; Text := text; URL := "" |}.

Definition set_URL (u : string) (b : ButtonBlockElement)
  : ButtonBlockElement :=
  {| ActionID := ActionID b; Value := Value b; Text := Text b; URL := u |}.

Inductive BlockElement : Type :=
| Button (b : ButtonBlockElement).

Inductive Block : Type :=
| NewHeaderBlock (textObj : option TextBlockObject)
| NewSectionBlock (textObj : option TextBlockObject)
    (fields : list TextBlockObject) (accessory : option BlockElement)
| NewDividerBlock
| NewActionBlock (blockID : string) (elements : list BlockElement).

Inductive MsgOption : Type :=
| MsgOptionText (text : string) (escape : bool)
| MsgOptionBlocks (blocks : list Block).

(** [slack.New(token)]. *)
Record Client : Type := New { token : string }.

(** One call of [PostMessage] as the service receives it. *)
Record PostMessageCall : Type := {
  call_token : string;
  call_channelID : string;
  call_options : list MsgOption;
}.

End slack.

(* ------------------------------------------------------------------------ *)
(** ** Effects *)

(** The line feed, which a Go string literal writes as a backslash and an
    [n]. *)
Definition LF : ascii := "010"%char.

(** An argument of [log.Printf]. *)
Inductive LogArg : Type :=
| ArgString (s : string)
| ArgFloat (x : float64).

(** One call of [log.Printf]. *)
Record LogRecord : Type := { log_format : string; log_args : list LogArg }.

(** The world the program runs in.  [slack_api history call] is the error
    the Slack service answers to [call] after having received [history]
    (oldest first); [files path] is what [os.ReadFile] finds at [path].
    [posted] and [logged] record, oldest first, the messages sent and the
    lines logged so far. *)
Record World : Type := {
  slack_api : list slack.PostMessageCall -> slack.PostMessageCall -> error;
  files : string -> string * error;
  posted : list slack.PostMessageCall;
  logged : list LogRecord;
}.

Definition M (A : Type) : Type := World -> A * World.

Definition ret {A} (x : A) : M A := fun w => (x, w).

Definition bind {A B} (m : M A) (k : A -> M B) : M B :=
  fun w => let '(x, w') := m w in k x w'.

Notation "x <- m ;; k" := (bind m (fun x => k))
  (at level 100, m at next level, right associativity).
Notation "m ;;; k" := (bind m (fun _ => k))
  (at level 100, right associativity).

(** [client.PostMessage(channelID, options...)]; only the error is kept by
    the program. *)
Definition PostMessage (c : slack.Client) (channelID : string)
    (options : list slack.MsgOption) : M error :=
  fun w =>
    let call := {| slack.call_token := slack.token c;
                   slack.call_channelID := channelID;
                   slack.call_options := options |} in
    (slack_api w (posted w) call,
     {| slack_api := slack_api w; files := files w;
        posted := posted w ++ [call]; logged := logged w |}).

Definition log_Printf (format : string) (args : list LogArg) : M unit :=
  fun w =>
    (tt,
     {| slack_api := slack_api w; files := files w; posted := posted w;
        logged := logged w ++ [{| log_format := format; log_args := args |}] |}).

Definition os_ReadFile (path : string) : M (string * error) :=
  fun w => (files w path, w).

(* ------------------------------------------------------------------------ *)
(** ** The application *)

Record App : Type := {
  cfg : Config;
  client : slack.Client;
}.

Definition NewApp (cfg : Config) : App :=
  {| cfg := cfg; client := slack.New (SlackToken cfg) |}.

Definition ParseFindingData (a : App) (raw : json.RawMessage)
  : Finding * error :=
  match Unmarshal raw Finding_zero with
  | (_, Some err) => (Finding_zero, Some err)
  | (f, None) =>
      let f := set_ConsoleURL
                 (Sprintf
                    "%s/guardduty/home?region=%s#/findings?&macros=current&fId=%s"
                    [AwsConsoleURL (cfg a); Region f; ID f]) f in
      let f := set_Raw raw f in
      let f := set_SeverityLabel (ToSeverityLevel f) f in
      (f, nil)
  end.

Definition CreateThread (a : App) (f : Finding) : M error :=
  let header :=
    slack.NewHeaderBlock
      (Some (slack.NewTextBlockObject "plain_text" (Title f) true false)) in
  let fields := [
    slack.NewTextBlockObject "mrkdwn" ("*Severity:* " ++ SeverityLabel f) false false;
    slack.NewTextBlockObject "mrkdwn" ("*Region:* " ++ Region f) false false;
    slack.NewTextBlockObject "mrkdwn" ("*Account:* " ++ AccountID f) false false
  ] in
  let details := slack.NewSectionBlock None fields None in
  let desc :=
    slack.NewSectionBlock
      (Some (slack.NewTextBlockObject "plain_text" (Description f) false false))
      [] None in
  let btn :=
    slack.NewButtonBlockElement "view" ""
      (Some (slack.NewTextBlockObject "plain_text" "View in Console" false false)) in
  let btn := slack.set_URL (ConsoleURL f) btn in
  let actions := slack.NewActionBlock "actions" [slack.Button btn] in
  PostMessage (client a) (SlackChannel (cfg a))
    [slack.MsgOptionText (Title f) false;
     slack.MsgOptionBlocks
       [header; details; desc; slack.NewDividerBlock; actions]].

Definition Process (a : App) (raw : json.RawMessage) : M error :=
  match ParseFindingData a raw with
  | (_, Some err) => ret (Some err)
  | (f, None) =>
      (if DebugEnabled (cfg a)
       then log_Printf ("finding id=%s severity=%.1f" ++ String LF "")%string
              [ArgString (ID f); ArgFloat (Severity f)]
       else ret tt) ;;;
      CreateThread a f
  end.

(* ------------------------------------------------------------------------ *)
(** ** Replaying the samples *)

Module events.

(** [events.CloudWatchEvent], reduced to the two fields the program
    reads. *)
Record CloudWatchEvent : Type := {
  ID : string;
  Detail : json.RawMessage;
}.

End events.

(** The loop [for _, e := range events] of [ProcessSamples]. *)
Fixpoint process_range (a : App) (evs : list events.CloudWatchEvent)
  : M error :=
  match evs with
  | [] => ret nil
  | e :: rest =>
      err <- Process a (events.Detail e) ;;
      match err with
      | Some err => ret (Errorf "process id=%s: " [events.ID e] err)
      | None => process_range a rest
      end
  end.

Section Samples.

(** [json.Unmarshal(data, &events)] for a slice of
    [events.CloudWatchEvent], a type of the AWS Lambda library. *)
Variable Unmarshal_events : string -> list events.CloudWatchEvent * error.

Definition ProcessSamples (a : App) : M error :=
  let path := ("fixtures" ++ "/" ++ "samples.json")%string in
  r <- os_ReadFile path ;;
  match r with
  | (_, Some err) => ret (Errorf "read fixtures/samples.json: " [] err)
  | (data, None) =>
      match Unmarshal_events data with
      | (_, Some err) => ret (Errorf "parse samples.json: " [] err)
      | (evs, None) => process_range a evs
      end
  end.

End Samples.

(* ------------------------------------------------------------------------ *)
(** ** The Lambda entry point *)

(** [log.Print(s)] for a string [s]: the line written is the one
    [log.Printf("%s", s)] writes, and is recorded as such. *)
Definition log_Print (s : string) : M unit :=
  log_Printf "%s" [ArgString s].

(** The package-level variables [once], [initErr] and [app].  [once] is
    the flag of the [sync.Once]: whether its function has run.  [app] is a
    pointer, [None] being the nil pointer. *)
Module global.

Record vars : Type := {
  once : bool;
  initErr : error;
  app : option App;
}.

(** The variables when the process starts. *)
Definition zero : vars := {| once := false; initErr := nil; app := None |}.

End global.

(** How a call of the handler ends: it returns an error (or [nil]), or it
    panics on a nil pointer. *)
Inductive outcome : Type :=
| Return (err : error)
| Panic.

(** [once.Do(f)], for calls that do not overlap: [f] runs if it has not
    run before, and the flag is set when it returns. *)
Definition once_Do (f : global.vars -> global.vars) (g : global.vars)
  : global.vars :=
  if global.once g then g
  else
    let g' := f g in
    {| global.once := true; global.initErr := global.initErr g';
       global.app := global.app g' |}.

(** The function literal handed to [once.Do]. *)
Definition initialise (env : gmap string string) (g : global.vars)
  : global.vars :=
  match BuildConfig env with
  | (_, Some err) =>
      {| global.once := global.once g; global.initErr := Some err;
         global.app := global.app g |}
  | (cfg, None) =>
      {| global.once := global.once g; global.initErr := global.initErr g;
         global.app := Some (NewApp cfg) |}
  end.

Section Commands.

(** [json.Marshal(evt)] for an [events.CloudWatchEvent]. *)
Variable Marshal_event : events.CloudWatchEvent -> string * error.

(** The [Error] method of an error: its text, which is what the verb [%v]
    and [log.Fatal] print. *)
Variable Error : error_value -> string.

(** [LambdaHandler(ctx, evt)], in a process whose environment is [env] and
    whose package-level variables are [g]; the context is not used. *)
Definition LambdaHandler (env : gmap string string)
    (evt : events.CloudWatchEvent) (g : global.vars)
  : M (outcome * global.vars) :=
  let g := once_Do (initialise env) g in
  match global.initErr g with
  | Some err => ret (Return (Some err), g)
  | None =>
      let '(evtJson, err) := Marshal_event evt in
      (match err with
       | Some err => log_Printf "ERROR marshalling event: %v" [ArgString (Error err)]
       | None => ret tt
       end) ;;;
      log_Print evtJson ;;;
      match global.app g with
      | None => ret (Panic, g)
      | Some a =>
          err <- Process a (events.Detail evt) ;;
          ret (Return err, g)
      end
  end.

(** [log.Fatal(err)]: the error is printed and the process exits with
    status 1; the exit is the [Fatal] of [status]. *)
Definition log_Fatal (err : error_value) : M unit :=
  log_Print (Error err).

End Commands.

(** How [TestWithSamples] ends: it returns, or [log.Fatal] ends the
    process. *)
Inductive status : Type :=
| Finished
| Fatal.

Section SampleRun.

Variable Error : error_value -> string.

(** [json.Unmarshal(data, &events)], as in [ProcessSamples]. *)
Variable Unmarshal_events : string -> list events.CloudWatchEvent * error.

(** [os.Stat(name)], reduced to its error. *)
Variable os_Stat : World -> string -> error.

(** [godotenv.Load(name)]: the environment it leaves. *)
Variable godotenv_Load :
  string -> World -> gmap string string -> gmap string string.

Definition TestWithSamples (env : gmap string string) : M status :=
  fun w =>
    let env :=
      match os_Stat w ".env" with
      | None => godotenv_Load ".env" w env
      | Some _ => env
      end in
    match BuildConfig env with
    | (_, Some err) => (log_Fatal Error err ;;; ret Fatal) w
    | (cfg, None) =>
        let app := NewApp cfg in
        (err <- ProcessSamples Unmarshal_events app ;;
         match err with
         | Some err => log_Fatal Error err ;;; ret Fatal
         | None => ret Finished
         end) w
    end.

End SampleRun.

(* ------------------------------------------------------------------------ *)
(** ** Vocabulary of the statements *)

(** The values a field takes without an error: see [store]. *)
Definition accepts (fld : field) (v : json.Value) : bool :=
  match fld, v with
  | field_Raw, _ => true
  | _, json.Null => true
  | field_severity, json.Number _ => true
  | field_severity, _ => false
  | _, json.Str _ => true
  | _, _ => false
  end.

(** Reading a string field of a [Finding]. *)
Definition get_string (fld : field) (f : Finding) : string :=
  match fld with
  | field_id => ID f
  | field_accountId => AccountID f
  | field_region => Region f
  | field_title => Title f
  | field_description => Description f
  | field_severity | field_Raw => ""
  end.

(** An object has a member for a field when one of its keys denotes it. *)
Definition mentions (members : list (string * json.Value)) (fld : field)
  : Prop :=
  exists key v, In (key, v) members /\ lookup_field key = Some fld.

(** [succeeds a evs w w']: starting in [w], every event of [evs] is
    processed without an error, one after the other, and the world is then
    [w']. *)
Inductive succeeds (a : App)
  : list events.CloudWatchEvent -> World -> World -> Prop :=
| succeeds_nil w : succeeds a [] w w
| succeeds_cons e rest w w1 w2 :
    Process a (events.Detail e) w = (nil, w1) ->
    succeeds a rest w1 w2 ->
    succeeds a (e :: rest) w w2.

(** The payloads [json.Unmarshal] decodes into a [Finding] without an
    error: [null], and the objects each of whose members either denotes no
    field or carries a value its field accepts. *)
Definition decodable (raw : json.RawMessage) : Prop :=
  match raw with
  | json.RawJSON json.Null => True
  | json.RawJSON (json.Object members) =>
      forall key v fld,
        In (key, v) members -> lookup_field key = Some fld ->
        accepts fld v = true
  | _ => False
  end.

(** The message [CreateThread] posts for a finding. *)
Definition expected_call (a : App) (f : Finding) : slack.PostMessageCall := {|
  slack.call_token := slack.token (client a);
  slack.call_channelID := SlackChannel (cfg a);
  slack.call_options := [
    slack.MsgOptionText (Title f) false;
    slack.MsgOptionBlocks [
      slack.NewHeaderBlock
        (Some (slack.NewTextBlockObject "plain_text" (Title f) true false));
      slack.NewSectionBlock None
        [slack.NewTextBlockObject "mrkdwn"
           ("*Severity:* " ++ SeverityLabel f) false false;
         slack.NewTextBlockObject "mrkdwn"
           ("*Region:* " ++ Region f) false false;
         slack.NewTextBlockObject "mrkdwn"
           ("*Account:* " ++ AccountID f) false false]
        None;
      slack.NewSectionBlock
        (Some (slack.NewTextBlockObject "plain_text" (Description f)
                 false false))
        [] None;
      slack.NewDividerBlock;
      slack.NewActionBlock "actions"
        [slack.Button
           {| slack.ActionID := "view"; slack.Value := "";
              slack.Text :=
                Some (slack.NewTextBlockObject "plain_text"
                        "View in Console" false false);
              slack.URL := ConsoleURL f |}]
    ]
  ]
|}.

(** The order of the labels, unknown being the least. *)
Definition severity_rank (l : SeverityLevel) : nat :=
  if String.eqb l SeverityLow then 1
  else if String.eqb l SeverityMedium then 2
  else if String.eqb l SeverityHigh then 3
  else if String.eqb l SeverityCritical then 4
  else 0.

(** A key with its ASCII letters upper-cased, byte by byte. *)
Fixpoint to_upper (s : string) : string :=
  match s with
  | EmptyString => ""
  | String c rest => String (json.upper c) (to_upper rest)
  end.

(** The fields that the members of an object denote, in document order. *)
Definition denoted (members : list (string * json.Value)) : list field :=
  omap (fun m => lookup_field (fst m)) members.

(** The handler called for one request after the other in one process,
    each request being the environment of the process at that time and the
    event; a panic ends the process. *)
Fixpoint invocations
    (Marshal_event : events.CloudWatchEvent -> string * error)
    (Error : error_value -> string)
    (reqs : list (gmap string string * events.CloudWatchEvent))
    (g : global.vars) : M (list outcome * global.vars) :=
  match reqs with
  | [] => ret ([], g)
  | (env, evt) :: rest =>
      r <- LambdaHandler Marshal_event Error env evt g ;;
      match r with
      | (Panic, g') => ret ([Panic], g')
      | (Return err, g') =>
          rs <- invocations Marshal_event Error rest g' ;;
          ret (Return err :: fst rs, snd rs)
      end
  end.

(** The world in which the handler calls [Process]: the one it was called
    in, with the line of the marshalling error, if any, and the dump of the
    event logged. *)
Definition after_dump
    (Marshal_event : events.CloudWatchEvent -> string * error)
    (Error : error_value -> string)
    (evt : events.CloudWatchEvent) (w : World) : World :=
  snd ((match snd (Marshal_event evt) with
        | Some err =>
            log_Printf "ERROR marshalling event: %v" [ArgString (Error err)]
        | None => ret tt
        end ;;;
        log_Print (fst (Marshal_event evt))) w).

(** The variables once the function of [once] has run and built the
    application for a configuration. *)
Definition initialised (c : Config) : global.vars :=
  {| global.once := true; global.initErr := nil;
     global.app := Some (NewApp c) |}.

(** The variables once the function of [once] has run and failed. *)
Definition failed (err : error_value) : global.vars :=
  {| global.once := true; global.initErr := Some err; global.app := None |}.

(* ------------------------------------------------------------------------ *)
(** ** Sample data *)

(** A finding with the binary64 score 9.5, in region eu-west-1. *)
Definition sample_critical : Finding := {|
  ID := "abc123"; AccountID := "123456789012"; Region := "eu-west-1";
  Title := "Test"; Description := "A test finding";
  Severity := f9_5; SeverityLabel := SeverityCritical;
  ConsoleURL := "";
  Raw := json.RawInvalid "";
|}.

Definition sample_cfg : Config := {|
  DebugEnabled := false;
  AwsConsoleURL := "https://us-east-1.console.aws.amazon.com";
  SlackToken := "xoxb-token";
  SlackChannel := "C000XXXXXXX";
|}.

Definition sample_app : App := NewApp sample_cfg.

(** The same application with debug logging on. *)
Definition sample_app_debug : App :=
  NewApp {| DebugEnabled := true;
            AwsConsoleURL := AwsConsoleURL sample_cfg;
            SlackToken := SlackToken sample_cfg;
            SlackChannel := SlackChannel sample_cfg |}.

(** A payload with every field of the finding. *)
Definition sample_payload : json.RawMessage :=
  json.RawJSON (json.Object [
    ("id", json.Str "abc123");
    ("accountId", json.Str "123456789012");
    ("region", json.Str "us-east-1");
    ("title", json.Str "Test");
    ("description", json.Str "A test finding");
    ("severity", json.Number f9_5)
  ]).

(** The finding [sample_payload] is parsed into by [sample_app]. *)
Definition sample_parsed : Finding := {|
  ID := "abc123"; AccountID := "123456789012"; Region := "us-east-1";
  Title := "Test"; Description := "A test finding";
  Severity := f9_5; SeverityLabel := SeverityCritical;
  ConsoleURL :=
    "https://us-east-1.console.aws.amazon.com/guardduty/home?region=us-east-1#/findings?&macros=current&fId=abc123";
  Raw := sample_payload;
|}.

(** The same payload without its [id] member. *)
Definition payload_without_id : json.RawMessage :=
  json.RawJSON (json.Object [
    ("accountId", json.Str "123456789012");
    ("region", json.Str "us-east-1");
    ("title", json.Str "Test");
    ("description", json.Str "A test finding");
    ("severity", json.Number f9_5)
  ]).

(** A payload whose [severity] is a string. *)
Definition payload_bad_severity : json.RawMessage :=
  json.RawJSON (json.Object [
    ("id", json.Str "abc123");
    ("severity", json.Str "high")
  ]).

(** A world in which Slack accepts every message, no file exists, and
    nothing has happened yet. *)
Definition quiet_world : World := {|
  slack_api := fun _ _ => nil;
  files := fun _ => ("", Some (ClientError "no such file"));
  posted := [];
  logged := [];
|}.

(** A world in which Slack rejects every message. *)
Definition failing_world : World := {|
  slack_api := fun _ _ => Some (ClientError "channel_not_found");
  files := fun _ => ("", Some (ClientError "no such file"));
  posted := [];
  logged := [];
|}.

(** Three sample events; the payload of the second cannot be decoded. *)
Definition sample_events : list events.CloudWatchEvent := [
  {| events.ID := "evt-1"; events.Detail := sample_payload |};
  {| events.ID := "evt-2"; events.Detail := payload_bad_severity |};
  {| events.ID := "evt-3"; events.Detail := payload_without_id |}
].

(** A world whose samples file can be read. *)
Definition samples_world : World := {|
  slack_api := fun _ _ => nil;
  files := fun path =>
    if String.eqb path "fixtures/samples.json" then ("[...]", nil)
    else ("", Some (ClientError "no such file"));
  posted := [];
  logged := [];
|}.

(** A decoder that reads the three sample events from any data. *)
Definition sample_decoder (data : string)
  : list events.CloudWatchEvent * error :=
  (sample_events, nil).

(** An environment with the three required settings. *)
Definition sample_env : gmap string string :=
  <["APP_SLACK_TOKEN" := "xoxb-token"]>
    (<["APP_SLACK_CHANNEL" := "C000XXXXXXX"]>
       (<["APP_AWS_CONSOLE_URL" :=
            "https://us-east-1.console.aws.amazon.com"]> ∅)).

(** An event that carries [sample_payload]. *)
Definition sample_event : events.CloudWatchEvent :=
  {| events.ID := "evt-1"; events.Detail := sample_payload |}.

(** A marshaller that fails on every event. *)
Definition failing_marshal (evt : events.CloudWatchEvent) : string * error :=
  ("", Some (ClientError "unsupported value")).

(** A marshaller that succeeds on every event. *)
Definition sample_marshal (evt : events.CloudWatchEvent) : string * error :=
  ("{...}", nil).

(** Error texts, for the errors built with [errors.New] and by the
    samples. *)
Fixpoint sample_Error (err : error_value) : string :=
  match err with
  | errors_New text => text
  | ClientError text => text
  | wrapError msg err => msg ++ sample_Error err
  | SyntaxError => "invalid JSON"
  | UnmarshalTypeError Value Field => "cannot unmarshal " ++ Value
  end.

(* ======================================================================== *)
(** * Properties *)

(* ------------------------------------------------------------------------ *)
(** ** Comparing binary64 data *)

Module Float64Facts.

Local Open Scope Z_scope.

Lemma digits2_pos_bounds (m : positive) :
  2 ^ (Zpos (digits2_pos m) - 1) <= Zpos m < 2 ^ Zpos (digits2_pos m).
Proof.
  induction m as [p IH | p IH |]; cbn [digits2_pos].
  - rewrite Pos2Z.inj_succ, Z.pow_succ_r by lia.
    replace (Z.succ (Zpos (digits2_pos p)) - 1)
      with (Z.succ (Zpos (digits2_pos p) - 1)) by lia.
    rewrite Z.pow_succ_r by lia. lia.
  - rewrite Pos2Z.inj_succ, Z.pow_succ_r by lia.
    replace (Z.succ (Zpos (digits2_pos p)) - 1)
      with (Z.succ (Zpos (digits2_pos p) - 1)) by lia.
    rewrite Z.pow_succ_r by lia. lia.
  - cbn. lia.
Qed.

(** What [bounded] says for binary64: the exponent lies between the
    least one and the greatest one, the mantissa has at most 53 bits, and
    exactly 53 unless the exponent is the least one. *)
Lemma bounded_inv (m : positive) (e : Z) :
  bounded prec emax m e = true ->
  -1074 <= e <= 971 /\ Zpos m < 2 ^ 53 /\ (-1074 < e -> 2 ^ 52 <= Zpos m).
Proof.
  unfold bounded, canonical_mantissa, fexp, emin, prec, emax.
  intros H. apply andb_prop in H as [Hc He].
  apply Z.eqb_eq in Hc. apply Z.leb_le in He.
  pose proof (digits2_pos_bounds m) as [Hlo Hhi].
  assert (Hd : Zpos (digits2_pos m) <= 53) by lia.
  split; [lia |]. split.
  - eapply Z.lt_le_trans; [exact Hhi |].
    apply Z.pow_le_mono_r; lia.
  - intros Hgt.
    assert (Heq : Zpos (digits2_pos m) = 53) by lia.
    rewrite Heq in Hlo. exact Hlo.
Qed.

Lemma compare_finite (m1 m2 : positive) (e1 e2 : Z) :
  bounded prec emax m1 e1 = true ->
  bounded prec emax m2 e2 = true ->
  match e1 ?= e2 with
  | Lt => Lt
  | Gt => Gt
  | Eq => Pos.compare_cont Eq m1 m2
  end = (Zpos m1 * 2 ^ (e1 + 1074) ?= Zpos m2 * 2 ^ (e2 + 1074)).
Proof.
  intros H1 H2.
  apply bounded_inv in H1 as (He1 & Hm1 & Hn1).
  apply bounded_inv in H2 as (He2 & Hm2 & Hn2).
  assert (Hstep : forall a b k l : Z,
             0 <= k < l -> 0 < a < 2 ^ 53 -> 2 ^ 52 <= b ->
             a * 2 ^ k < b * 2 ^ l).
  { intros a b k l Hkl Ha Hb.
    replace l with (Z.succ (l - k - 1) + k) by lia.
    rewrite Z.pow_add_r, Z.pow_succ_r by lia.
    assert (0 < 2 ^ k) by (apply Z.pow_pos_nonneg; lia).
    assert (0 < 2 ^ (l - k - 1)) by (apply Z.pow_pos_nonneg; lia).
    change (2 ^ 53) with (2 * 2 ^ 52) in Ha.
    assert (a < b * (2 * 2 ^ (l - k - 1))) by nia.
    nia. }
  destruct (Z.compare_spec e1 e2) as [Heq | Hlt | Hgt].
  - subst e2. symmetry.
    assert (0 < 2 ^ (e1 + 1074)) by (apply Z.pow_pos_nonneg; lia).
    rewrite <- Zmult_compare_compat_r by lia. reflexivity.
  - symmetry. apply Z.compare_lt_iff. apply Hstep; lia.
  - symmetry. apply Z.compare_gt_iff. apply Hstep; lia.
Qed.

Lemma scaled_sign (s : bool) (m : positive) (e : Z) :
  -1074 <= e ->
  if s then scaled (S754_finite s m e) < 0
  else 0 < scaled (S754_finite s m e).
Proof.
  intros He. cbn [scaled].
  assert (0 < 2 ^ (e + 1074)) by (apply Z.pow_pos_nonneg; lia).
  destruct s; cbn [cond_Zopp]; nia.
Qed.

(** On finite binary64 data the comparison of [SpecFloat] is the
    comparison of the values. *)
Lemma SFcompare_scaled (x y : float64) :
  valid x = true -> valid y = true ->
  is_finite x = true -> is_finite y = true ->
  SFcompare x y = Some (scaled x ?= scaled y).
Proof.
  unfold valid.
  destruct x as [sx | sx | | sx mx ex]; try discriminate;
    destruct y as [sy | sy | | sy my ey]; try discriminate;
    cbn [valid_binary is_finite]; intros Hx Hy _ _.
  - reflexivity.
  - apply bounded_inv in Hy as (He & _ & _).
    pose proof (scaled_sign sy my ey ltac:(lia)) as Hs.
    cbn [SFcompare]. change (scaled (S754_zero sx)) with 0.
    destruct sy; f_equal; symmetry;
      [apply Z.compare_gt_iff | apply Z.compare_lt_iff]; exact Hs.
  - apply bounded_inv in Hx as (He & _ & _).
    pose proof (scaled_sign sx mx ex ltac:(lia)) as Hs.
    cbn [SFcompare]. change (scaled (S754_zero sy)) with 0.
    destruct sx; f_equal; symmetry;
      [apply Z.compare_lt_iff | apply Z.compare_gt_iff]; exact Hs.
  - pose proof (compare_finite mx my ex ey Hx Hy) as Hc.
    pose proof (compare_finite my mx ey ex Hy Hx) as Hc'.
    apply bounded_inv in Hx as (Hex & _ & _).
    apply bounded_inv in Hy as (Hey & _ & _).
    pose proof (scaled_sign sx mx ex ltac:(lia)) as Hsx.
    pose proof (scaled_sign sy my ey ltac:(lia)) as Hsy.
    cbn [SFcompare]. f_equal.
    destruct sx, sy.
    + cbn [scaled cond_Zopp].
      rewrite Z.compare_opp. rewrite <- Hc'.
      rewrite (Z.compare_antisym ey ex), (Pos.compare_cont_antisym mx my Eq).
      destruct (ey ?= ex); reflexivity.
    + symmetry. apply Z.compare_lt_iff. lia.
    + symmetry. apply Z.compare_gt_iff. lia.
    + cbn [scaled cond_Zopp]. exact Hc.
Qed.

Lemma to_Q_lt (x y : float64) :
  (to_Q x < to_Q y)%Q <-> scaled x < scaled y.
Proof.
  unfold to_Q, Qlt. cbn [Qnum Qden].
  generalize (2 ^ 1074)%positive as d. intros d.
  symmetry. apply Z.mul_lt_mono_pos_r. lia.
Qed.

Lemma to_Q_le (x y : float64) :
  (to_Q x <= to_Q y)%Q <-> scaled x <= scaled y.
Proof.
  unfold to_Q, Qle. cbn [Qnum Qden].
  generalize (2 ^ 1074)%positive as d. intros d.
  symmetry. apply Z.mul_le_mono_pos_r. lia.
Qed.

Lemma ltb_spec (x y : float64) :
  valid x = true -> valid y = true ->
  is_finite x = true -> is_finite y = true ->
  ltb x y = true <-> (to_Q x < to_Q y)%Q.
Proof.
  intros Hx Hy Fx Fy. rewrite to_Q_lt.
  unfold ltb, SFltb. rewrite (SFcompare_scaled x y Hx Hy Fx Fy).
  destruct (Z.compare_spec (scaled x) (scaled y)); split;
    intros; try lia; try discriminate; reflexivity.
Qed.

Lemma leb_spec (x y : float64) :
  valid x = true -> valid y = true ->
  is_finite x = true -> is_finite y = true ->
  leb x y = true <-> (to_Q x <= to_Q y)%Q.
Proof.
  intros Hx Hy Fx Fy. rewrite to_Q_le.
  unfold leb, SFleb. rewrite (SFcompare_scaled x y Hx Hy Fx Fy).
  destruct (Z.compare_spec (scaled x) (scaled y)); split;
    intros; try lia; try discriminate; reflexivity.
Qed.

(** Small integers are binary64 data and denote themselves. *)
Lemma of_Z_small (z : Z) :
  In z [-1; 0; 4; 7; 9; 10] ->
  valid (of_Z z) = true /\ is_finite (of_Z z) = true /\
  (to_Q (of_Z z) == inject_Z z)%Q.
Proof.
  cbn [In]. intros H.
  repeat (destruct H as [<- | H];
          [repeat split; vm_compute; reflexivity |]).
  contradiction.
Qed.

(** The two decimal scores of the samples: [f9_5] is 9.5, and [f10_0001]
    is within half a unit in the last place (2^-50) of 10.0001. *)
Lemma sample_scores :
  (to_Q f9_5 == 19 # 2)%Q /\
  valid f10_0001 = true /\
  ((100001 # 10000) - (1 # 2 ^ 50) < to_Q f10_0001
   < (100001 # 10000) + (1 # 2 ^ 50))%Q /\
  (10 < to_Q f10_0001)%Q.
Proof. repeat split; vm_compute; reflexivity. Qed.

End Float64Facts.

(* ------------------------------------------------------------------------ *)
(** ** The severity classifier *)

Section Classifier.

Import Float64Facts.
Local Open Scope Z_scope.

Variable f : Finding.
Hypothesis Hvalid : valid (Severity f) = true.
Hypothesis Hfinite : is_finite (Severity f) = true.

Lemma ltb_Z (z : Z) (H : In z [-1; 0; 4; 7; 9; 10]) :
  ltb (Severity f) (of_Z z) = true <-> (to_Q (Severity f) < inject_Z z)%Q.
Proof.
  destruct (of_Z_small z H) as (Hv & Hf & Hq).
  rewrite (ltb_spec _ _ Hvalid Hv Hfinite Hf), Hq. reflexivity.
Qed.

Lemma leb_Z (z : Z) (H : In z [-1; 0; 4; 7; 9; 10]) :
  leb (Severity f) (of_Z z) = true <-> (to_Q (Severity f) <= inject_Z z)%Q.
Proof.
  destruct (of_Z_small z H) as (Hv & Hf & Hq).
  rewrite (leb_spec _ _ Hvalid Hv Hfinite Hf), Hq. reflexivity.
Qed.

(** The cascade of [ToSeverityLevel], read on the value of the score. *)
Lemma ToSeverityLevel_finite :
  ToSeverityLevel f =
    if Qlt_le_dec (to_Q (Severity f)) 4%Q then SeverityLow
    else if Qlt_le_dec (to_Q (Severity f)) 7%Q then SeverityMedium
    else if Qlt_le_dec (to_Q (Severity f)) 9%Q then SeverityHigh
    else if Qlt_le_dec 10%Q (to_Q (Severity f)) then SeverityUnknown
    else SeverityCritical.
Proof.
  unfold ToSeverityLevel.
  pose proof (ltb_Z 4 ltac:(cbn; tauto)) as H4.
  pose proof (ltb_Z 7 ltac:(cbn; tauto)) as H7.
  pose proof (ltb_Z 9 ltac:(cbn; tauto)) as H9.
  pose proof (leb_Z 10 ltac:(cbn; tauto)) as H10.
  change (inject_Z 4) with 4%Q in H4. change (inject_Z 7) with 7%Q in H7.
  change (inject_Z 9) with 9%Q in H9. change (inject_Z 10) with 10%Q in H10.
  destruct (ltb (Severity f) (of_Z 4)) eqn:E4.
  { destruct (Qlt_le_dec _ 4%Q) as [_ | Hge]; [reflexivity |].
    apply Qle_not_lt in Hge. destruct Hge. apply H4. reflexivity. }
  destruct (Qlt_le_dec _ 4%Q) as [Hlt | _].
  { apply H4 in Hlt. discriminate. }
  destruct (ltb (Severity f) (of_Z 7)) eqn:E7.
  { destruct (Qlt_le_dec _ 7%Q) as [_ | Hge]; [reflexivity |].
    apply Qle_not_lt in Hge. destruct Hge. apply H7. reflexivity. }
  destruct (Qlt_le_dec _ 7%Q) as [Hlt | _].
  { apply H7 in Hlt. discriminate. }
  destruct (ltb (Severity f) (of_Z 9)) eqn:E9.
  { destruct (Qlt_le_dec _ 9%Q) as [_ | Hge]; [reflexivity |].
    apply Qle_not_lt in Hge. destruct Hge. apply H9. reflexivity. }
  destruct (Qlt_le_dec _ 9%Q) as [Hlt | _].
  { apply H9 in Hlt. discriminate. }
  destruct (leb (Severity f) (of_Z 10)) eqn:E10.
  { destruct (Qlt_le_dec 10%Q _) as [Hgt | _]; [| reflexivity].
    apply Qlt_not_le in Hgt. destruct Hgt. apply H10. reflexivity. }
  destruct (Qlt_le_dec 10%Q _) as [_ | Hle]; [reflexivity |].
  apply H10 in Hle. discriminate.
Qed.

End Classifier.

Ltac classify_at H :=
  unfold ToSeverityLevel; rewrite H; vm_compute; reflexivity.

(** C1, as amended.  For every finding whose score [s] is a binary64 datum:
    when [s] is finite, [s < 4] gives low (negative scores included),
    [4 <= s < 7] gives medium, [7 <= s < 9] gives high, [9 <= s <= 10]
    gives critical and [s > 10] gives unknown; minus infinity gives low,
    plus infinity and NaN give unknown.  The label is always one of the
    five, and the scores -1, 0, 4, 7, 9, 10 and 10.0001 give low, low,
    medium, high, critical, critical and unknown. *)
Theorem ToSeverityLevel_boundaries (f : Finding) :
  valid (Severity f) = true ->
  (is_finite (Severity f) = true ->
     ((to_Q (Severity f) < 4)%Q -> ToSeverityLevel f = SeverityLow) /\
     ((4 <= to_Q (Severity f) < 7)%Q -> ToSeverityLevel f = SeverityMedium) /\
     ((7 <= to_Q (Severity f) < 9)%Q -> ToSeverityLevel f = SeverityHigh) /\
     ((9 <= to_Q (Severity f) <= 10)%Q ->
      ToSeverityLevel f = SeverityCritical) /\
     ((10 < to_Q (Severity f))%Q -> ToSeverityLevel f = SeverityUnknown)) /\
  (Severity f = S754_infinity true -> ToSeverityLevel f = SeverityLow) /\
  (Severity f = S754_infinity false -> ToSeverityLevel f = SeverityUnknown) /\
  (Severity f = S754_nan -> ToSeverityLevel f = SeverityUnknown) /\
  In (ToSeverityLevel f)
    [SeverityLow; SeverityMedium; SeverityHigh; SeverityCritical;
     SeverityUnknown] /\
  (forall g, Severity g = of_Z (-1) -> ToSeverityLevel g = SeverityLow) /\
  (forall g, Severity g = of_Z 0 -> ToSeverityLevel g = SeverityLow) /\
  (forall g, Severity g = of_Z 4 -> ToSeverityLevel g = SeverityMedium) /\
  (forall g, Severity g = of_Z 7 -> ToSeverityLevel g = SeverityHigh) /\
  (forall g, Severity g = of_Z 9 -> ToSeverityLevel g = SeverityCritical) /\
  (forall g, Severity g = of_Z 10 -> ToSeverityLevel g = SeverityCritical) /\
  (forall g, Severity g = f10_0001 -> ToSeverityLevel g = SeverityUnknown).
Proof.
  intros Hvalid. split.
  { intros Hfinite. rewrite (ToSeverityLevel_finite f Hvalid Hfinite).
    repeat split; intros H;
      repeat (destruct (Qlt_le_dec _ _); try reflexivity; try lra). }
  split; [intros H; classify_at H |].
  split; [intros H; classify_at H |].
  split; [intros H; classify_at H |].
  split.
  { unfold ToSeverityLevel. cbn [In].
    repeat (match goal with |- context [if ?b then _ else _] => destruct b end);
      tauto. }
  repeat split; intros g H; classify_at H.
Qed.

Lemma ToSeverityLevel_boundaries_witness :
  valid (Severity sample_critical) = true /\
  is_finite (Severity sample_critical) = true /\
  (9 <= to_Q (Severity sample_critical) <= 10)%Q /\
  ToSeverityLevel sample_critical = SeverityCritical.
Proof.
  assert (Hrange : (9 <= to_Q (Severity sample_critical) <= 10)%Q)
    by (split; vm_compute; discriminate).
  split; [reflexivity |]. split; [reflexivity |]. split; [exact Hrange |].
  pose proof (ToSeverityLevel_boundaries sample_critical eq_refl)
    as (Hfin & _).
  destruct (Hfin eq_refl) as (_ & _ & _ & Hcrit & _).
  apply Hcrit. exact Hrange.
Defined.

(** C1 as stated fails: the score -1 is negative, and its label is low, not
    unknown. *)
Lemma ToSeverityLevel_negative_is_low :
  valid (of_Z (-1)) = true /\
  (to_Q (of_Z (-1)) == -1)%Q /\
  ToSeverityLevel (set_Severity (of_Z (-1)) Finding_zero) = SeverityLow /\
  ToSeverityLevel (set_Severity (of_Z (-1)) Finding_zero) <> SeverityUnknown.
Proof.
  repeat split; try (vm_compute; reflexivity).
  vm_compute. discriminate.
Qed.

(* ------------------------------------------------------------------------ *)
(** ** Configuration *)

Lemma Getenv_empty (env : gmap string string) (key : string) :
  Getenv env key = "" <-> env !! key = None \/ env !! key = Some "".
Proof.
  unfold Getenv. destruct (env !! key) as [v |]; cbn.
  - split; [intros -> | intros [H | H]]; [right | |]; congruence.
  - split; [left |]; reflexivity.
Qed.

Lemma Getenv_insert_ne (env : gmap string string) (k k' v : string) :
  k <> k' -> Getenv (<[k := v]> env) k' = Getenv env k'.
Proof. intros H. unfold Getenv. rewrite lookup_insert_ne by exact H. reflexivity. Qed.


(** C5.  [BuildConfig] succeeds exactly when the token, the channel and the
    console URL are all non-empty, and then returns the settings read; when
    one is empty the error names the first empty one in the order token,
    channel, console URL.  A missing debug setting is no error and leaves
    the flag off. *)
Theorem BuildConfig_required (env : gmap string string) :
  (snd (BuildConfig env) = nil <->
   Getenv env "APP_SLACK_TOKEN" <> "" /\
   Getenv env "APP_SLACK_CHANNEL" <> "" /\
   Getenv env "APP_AWS_CONSOLE_URL" <> "") /\
  (snd (BuildConfig env) = nil ->
   SlackToken (fst (BuildConfig env)) = Getenv env "APP_SLACK_TOKEN" /\
   SlackChannel (fst (BuildConfig env)) = Getenv env "APP_SLACK_CHANNEL" /\
   AwsConsoleURL (fst (BuildConfig env)) = Getenv env "APP_AWS_CONSOLE_URL") /\
  (Getenv env "APP_SLACK_TOKEN" = "" ->
   snd (BuildConfig env) = Some (errors_New "missing env var APP_SLACK_TOKEN")) /\
  (Getenv env "APP_SLACK_TOKEN" <> "" ->
   Getenv env "APP_SLACK_CHANNEL" = "" ->
   snd (BuildConfig env) = Some (errors_New "missing env var APP_SLACK_CHANNEL")) /\
  (Getenv env "APP_SLACK_TOKEN" <> "" ->
   Getenv env "APP_SLACK_CHANNEL" <> "" ->
   Getenv env "APP_AWS_CONSOLE_URL" = "" ->
   snd (BuildConfig env) =
     Some (errors_New "missing env var APP_AWS_CONSOLE_URL")) /\
  (env !! "APP_DEBUG_ENABLED" = None ->
   snd (BuildConfig env) = snd (BuildConfig (<["APP_DEBUG_ENABLED" := "false"]> env)) /\
   DebugEnabled (fst (BuildConfig env)) = false).
Proof.
  unfold BuildConfig. cbn [SlackToken SlackChannel AwsConsoleURL DebugEnabled].
  rewrite !Getenv_insert_ne by discriminate.
  assert (Hdebug : env !! "APP_DEBUG_ENABLED" = None ->
                   String.eqb (Getenv env "APP_DEBUG_ENABLED") "true" = false).
  { intros Hd. unfold Getenv. rewrite Hd. reflexivity. }
  destruct (String.eqb_spec (Getenv env "APP_SLACK_TOKEN") "") as [Ht | Ht];
    [| destruct (String.eqb_spec (Getenv env "APP_SLACK_CHANNEL") "") as [Hc | Hc];
       [| destruct (String.eqb_spec (Getenv env "APP_AWS_CONSOLE_URL") "")
            as [Hu | Hu]]];
    cbn [fst snd SlackToken SlackChannel AwsConsoleURL DebugEnabled];
    repeat match goal with
      | |- _ /\ _ => split
      | |- _ <-> _ => split
      | |- _ -> _ => intro
      | H : _ /\ _ |- _ => destruct H
      end;
    try discriminate; try contradiction; try reflexivity; auto.
Qed.



(* ------------------------------------------------------------------------ *)
(** ** Decoding *)

Lemma store_accepts (fld : field) (v : json.Value) (f : Finding) :
  snd (store fld v f) = nil <-> accepts fld v = true.
Proof.
  destruct fld, v; cbn; split; intros H; try reflexivity; discriminate.
Qed.

Lemma saveError_nil (saved err : error) :
  saveError saved err = nil <-> saved = nil /\ err = nil.
Proof.
  unfold nil. destruct saved, err; cbn; split;
    (intros [H1 H2] || intros H); try split; congruence.
Qed.

Lemma object_no_error (members : list (string * json.Value)) :
  forall (f : Finding) (saved : error),
    snd (object members f saved) = nil <->
    saved = nil /\
    (forall key v fld,
        In (key, v) members -> lookup_field key = Some fld ->
        accepts fld v = true).
Proof.
  induction members as [| [key v] rest IH]; intros f saved; cbn [object].
  - cbn. split; [intros H; split; [exact H | intros ? ? ? []] | tauto].
  - destruct (lookup_field key) as [fld |] eqn:Hkey.
    + destruct (store fld v f) as [f' err] eqn:Hstore.
      rewrite IH, saveError_nil.
      assert (Herr : err = nil <-> accepts fld v = true).
      { rewrite <- (store_accepts fld v f), Hstore. reflexivity. }
      split.
      * intros ((Hs & He) & Hrest). split; [exact Hs |].
        intros k x g [[= <- <-] | Hin] Hk.
        -- rewrite Hkey in Hk. injection Hk as <-. apply Herr, He.
        -- eapply Hrest; eassumption.
      * intros (Hs & Hall). split; [split; [exact Hs |] |].
        -- apply Herr. apply (Hall key v fld); [left; reflexivity | exact Hkey].
        -- intros k x g Hin Hk. apply (Hall k x g); [right; exact Hin | exact Hk].
    + rewrite IH. split; intros (Hs & Hall); (split; [exact Hs |]).
      * intros k x g [[= <- <-] | Hin] Hk; [congruence |].
        eapply Hall; eassumption.
      * intros k x g Hin Hk. apply (Hall k x g); [right; exact Hin | exact Hk].
Qed.

Lemma Unmarshal_no_error (raw : json.RawMessage) (f : Finding) :
  snd (Unmarshal raw f) = nil <-> decodable raw.
Proof.
  destruct raw as [v | bytes]; [| cbn; split; [discriminate | tauto]].
  destruct v; cbn [Unmarshal decodable snd];
    try (split; [discriminate | tauto]); try tauto.
  rewrite object_no_error. split; [intros (_ & H); exact H | auto].
Qed.

Lemma store_other_string (fld fld' : field) (v : json.Value) (f : Finding) :
  fld' <> fld ->
  get_string fld (fst (store fld' v f)) = get_string fld f.
Proof.
  intros Hne. destruct fld', fld, v; cbn; try reflexivity; congruence.
Qed.

Lemma store_other_Severity (fld' : field) (v : json.Value) (f : Finding) :
  fld' <> field_severity ->
  Severity (fst (store fld' v f)) = Severity f.
Proof.
  intros Hne. destruct fld', v; cbn; try reflexivity; congruence.
Qed.

Lemma not_mentions_cons key v (rest : list (string * json.Value)) fld :
  ~ mentions ((key, v) :: rest) fld ->
  lookup_field key <> Some fld /\ ~ mentions rest fld.
Proof.
  intros H. split.
  - intros Hk. apply H. exists key, v. split; [left; reflexivity | exact Hk].
  - intros (k & x & Hin & Hk). apply H. exists k, x.
    split; [right; exact Hin | exact Hk].
Qed.

(** A field no member denotes keeps the value it had. *)
Lemma object_untouched (members : list (string * json.Value)) (fld : field) :
  ~ mentions members fld ->
  forall (f : Finding) (saved : error),
    get_string fld (fst (object members f saved)) = get_string fld f /\
    (fld = field_severity ->
     Severity (fst (object members f saved)) = Severity f).
Proof.
  induction members as [| [key v] rest IH]; intros Hno f saved; cbn [object].
  - split; reflexivity.
  - apply not_mentions_cons in Hno as (Hkey & Hrest).
    destruct (lookup_field key) as [fld' |]; [| apply IH; exact Hrest].
    assert (Hne : fld' <> fld) by congruence.
    destruct (store fld' v f) as [f' err] eqn:Hstore.
    destruct (IH Hrest f' (saveError saved err)) as (Hs & Hv).
    split.
    + rewrite Hs. replace f' with (fst (store fld' v f)) by (rewrite Hstore; reflexivity).
      apply store_other_string. exact Hne.
    + intros ->. rewrite Hv by reflexivity.
      replace f' with (fst (store fld' v f)) by (rewrite Hstore; reflexivity).
      apply store_other_Severity. exact Hne.
Qed.

Lemma append_empty_r (s : string) : (s ++ "")%string = s.
Proof.
  induction s as [| c s IH]; [reflexivity |].
  change (String c (s ++ "")%string = String c s). rewrite IH. reflexivity.
Qed.

(** The format of the console URL, rendered. *)
Lemma Sprintf_console_url (base region id : string) :
  Sprintf "%s/guardduty/home?region=%s#/findings?&macros=current&fId=%s"
    [base; region; id] =
  (base ++ "/guardduty/home?region=" ++ region
   ++ "#/findings?&macros=current&fId=" ++ id)%string.
Proof. cbn. rewrite append_empty_r. reflexivity. Qed.

(** What [ParseFindingData] returns, in terms of the decoder. *)
Lemma ParseFindingData_unfold (a : App) (raw : json.RawMessage) :
  ParseFindingData a raw =
    match snd (Unmarshal raw Finding_zero) with
    | Some err => (Finding_zero, Some err)
    | None =>
        let f := fst (Unmarshal raw Finding_zero) in
        ({| ID := ID f; AccountID := AccountID f; Region := Region f;
            Title := Title f; Description := Description f;
            Severity := Severity f;
            SeverityLabel := ToSeverityLevel f;
            ConsoleURL :=
              AwsConsoleURL (cfg a) ++ "/guardduty/home?region=" ++ Region f
              ++ "#/findings?&macros=current&fId=" ++ ID f;
            Raw := raw |}, nil)
    end.
Proof.
  unfold ParseFindingData.
  destruct (Unmarshal raw Finding_zero) as [f [err |]]; [reflexivity |].
  rewrite Sprintf_console_url. reflexivity.
Qed.

Lemma ParseFindingData_snd (a : App) (raw : json.RawMessage) :
  snd (ParseFindingData a raw) = snd (Unmarshal raw Finding_zero).
Proof.
  rewrite ParseFindingData_unfold.
  destruct (snd (Unmarshal raw Finding_zero)); reflexivity.
Qed.

(** What [Process] does, in one step. *)
Lemma Process_unfold (a : App) (raw : json.RawMessage) (w : World) :
  Process a raw w =
    match ParseFindingData a raw with
    | (_, Some err) => (Some err, w)
    | (f, None) =>
        (slack_api w (posted w) (expected_call a f),
         {| slack_api := slack_api w; files := files w;
            posted := posted w ++ [expected_call a f];
            logged :=
              if DebugEnabled (cfg a)
              then logged w ++
                   [{| log_format := ("finding id=%s severity=%.1f" ++ String LF "")%string;
                       log_args := [ArgString (ID f); ArgFloat (Severity f)] |}]
              else logged w |})
    end.
Proof.
  unfold Process.
  destruct (ParseFindingData a raw) as [f [err |]]; [reflexivity |].
  destruct (DebugEnabled (cfg a)); reflexivity.
Qed.

(* ------------------------------------------------------------------------ *)
(** ** The parser *)

(** C2, as amended.  [ParseFindingData] returns no error exactly on the
    decodable payloads.  It returns an error for bytes that are not JSON,
    for a JSON value that is neither an object nor [null], and for an
    object with a member that denotes a field and carries a value the field
    does not accept; whenever it returns an error, [Process] returns that
    error and leaves the world as it was, so that nothing is sent.  A
    decodable object that has no member for a field is no error: the field
    is left at its zero value. *)
Theorem ParseFindingData_errors (a : App) (raw : json.RawMessage) :
  (snd (ParseFindingData a raw) = nil <-> decodable raw) /\
  (forall bytes, raw = json.RawInvalid bytes ->
     snd (ParseFindingData a raw) = Some SyntaxError) /\
  (forall v, raw = json.RawJSON v ->
     v <> json.Null -> (forall members, v <> json.Object members) ->
     snd (ParseFindingData a raw) = Some (UnmarshalTypeError (json.kind v) "")) /\
  (forall members key v fld,
     raw = json.RawJSON (json.Object members) ->
     In (key, v) members -> lookup_field key = Some fld ->
     accepts fld v = false ->
     snd (ParseFindingData a raw) <> nil) /\
  (forall err, snd (ParseFindingData a raw) = Some err ->
     forall w, Process a raw w = (Some err, w)) /\
  (forall members fld,
     raw = json.RawJSON (json.Object members) ->
     decodable raw -> ~ mentions members fld ->
     get_string fld (fst (ParseFindingData a raw)) = "" /\
     (fld = field_severity ->
      Severity (fst (ParseFindingData a raw)) = zero)).
Proof.
  assert (Hiff : snd (ParseFindingData a raw) = nil <-> decodable raw).
  { rewrite ParseFindingData_snd. apply Unmarshal_no_error. }
  split; [exact Hiff |].
  split; [intros bytes ->; reflexivity |].
  split.
  { intros v -> Hnull Hobj. rewrite ParseFindingData_snd.
    destruct v; try reflexivity; [congruence | destruct (Hobj members eq_refl)]. }
  split.
  { intros members key v fld -> Hin Hkey Hacc Hnil.
    apply Hiff in Hnil. cbn in Hnil.
    rewrite (Hnil key v fld Hin Hkey) in Hacc. discriminate. }
  split.
  { intros err Herr w. rewrite Process_unfold.
    destruct (ParseFindingData a raw) as [f e]. cbn in Herr. subst e.
    reflexivity. }
  intros members fld -> Hdec Hno.
  apply Hiff in Hdec. rewrite ParseFindingData_snd in Hdec.
  rewrite ParseFindingData_unfold, Hdec. cbn [fst Unmarshal].
  destruct (object_untouched members fld Hno Finding_zero nil) as (Hs & Hv).
  split.
  - transitivity (get_string fld (fst (object members Finding_zero nil)));
      [destruct fld; reflexivity |].
    rewrite Hs. destruct fld; reflexivity.
  - intros Hf. cbn [Severity]. rewrite (Hv Hf). reflexivity.
Qed.

(** C2 as stated fails: the payload without an [id] member is a JSON object
    that has no member for [id]; it is parsed without an error, the [ID] of
    the finding is empty, and [Process] sends one message for it. *)
Lemma ParseFindingData_missing_id_accepted :
  (forall key v,
     In (key, v)
        [("accountId", json.Str "123456789012");
         ("region", json.Str "us-east-1");
         ("title", json.Str "Test");
         ("description", json.Str "A test finding");
         ("severity", json.Number f9_5)] ->
     lookup_field key <> Some field_id) /\
  snd (ParseFindingData sample_app payload_without_id) = nil /\
  ID (fst (ParseFindingData sample_app payload_without_id)) = "" /\
  fst (Process sample_app payload_without_id quiet_world) = nil /\
  length (posted (snd (Process sample_app payload_without_id quiet_world))) = 1.
Proof.
  split.
  { intros key v Hin. cbn [In] in Hin.
    repeat (destruct Hin as [[= <- <-] | Hin]; [vm_compute; discriminate |]).
    contradiction. }
  repeat split; vm_compute; reflexivity.
Qed.

(** C4.  The console URL of a parsed finding is the configured base URL,
    the finding's region and the finding's id, put into the template
    [{base}/guardduty/home?region={region}#/findings?&macros=current&fId={id}];
    for the base URL [https://us-east-1.console.aws.amazon.com], the region
    [us-east-1] and the id [abc123] it is the URL of the specification. *)
Theorem ParseFindingData_consoleUrl
    (a : App) (raw : json.RawMessage) (f : Finding) :
  ParseFindingData a raw = (f, nil) ->
  ConsoleURL f =
    (AwsConsoleURL (cfg a) ++ "/guardduty/home?region=" ++ Region f
     ++ "#/findings?&macros=current&fId=" ++ ID f)%string /\
  (AwsConsoleURL (cfg a) = "https://us-east-1.console.aws.amazon.com" ->
   Region f = "us-east-1" -> ID f = "abc123" ->
   ConsoleURL f =
     "https://us-east-1.console.aws.amazon.com/guardduty/home?region=us-east-1#/findings?&macros=current&fId=abc123").
Proof.
  intros Hparse.
  assert (Hurl : ConsoleURL f =
            (AwsConsoleURL (cfg a) ++ "/guardduty/home?region=" ++ Region f
             ++ "#/findings?&macros=current&fId=" ++ ID f)%string).
  { rewrite ParseFindingData_unfold in Hparse.
    destruct (snd (Unmarshal raw Finding_zero)); [discriminate |].
    injection Hparse as <-. reflexivity. }
  split; [exact Hurl |].
  intros Hbase Hregion Hid. rewrite Hurl, Hbase, Hregion, Hid. reflexivity.
Qed.

Lemma ParseFindingData_consoleUrl_witness :
  ParseFindingData sample_app sample_payload = (sample_parsed, nil) /\
  ConsoleURL sample_parsed =
    "https://us-east-1.console.aws.amazon.com/guardduty/home?region=us-east-1#/findings?&macros=current&fId=abc123".
Proof.
  assert (Hparse : ParseFindingData sample_app sample_payload
                   = (sample_parsed, nil))
    by (vm_compute; reflexivity).
  split; [exact Hparse |].
  apply (proj2 (ParseFindingData_consoleUrl sample_app sample_payload
                  sample_parsed Hparse));
    reflexivity.
Defined.

(** C7.  A finding returned by [ParseFindingData] carries the label the
    classifier gives to its score and the console URL the template gives
    for the configured base URL, its region and its id; the label is one of
    the five and the URL is not empty; the payload is kept.  [Process]
    hands this very finding to [CreateThread]. *)
Theorem ParseFindingData_invariant
    (a : App) (raw : json.RawMessage) (f : Finding) :
  ParseFindingData a raw = (f, nil) ->
  SeverityLabel f = ToSeverityLevel f /\
  ConsoleURL f =
    (AwsConsoleURL (cfg a) ++ "/guardduty/home?region=" ++ Region f
     ++ "#/findings?&macros=current&fId=" ++ ID f)%string /\
  In (SeverityLabel f)
    [SeverityLow; SeverityMedium; SeverityHigh; SeverityCritical;
     SeverityUnknown] /\
  SeverityLabel f <> "" /\
  ConsoleURL f <> "" /\
  Raw f = raw /\
  (forall w,
     fst (Process a raw w) = fst (CreateThread a f w) /\
     posted (snd (Process a raw w)) = posted (snd (CreateThread a f w))).
Proof.
  intros Hparse.
  assert (Hshape : SeverityLabel f = ToSeverityLevel f /\
                   ConsoleURL f =
                     (AwsConsoleURL (cfg a) ++ "/guardduty/home?region="
                      ++ Region f ++ "#/findings?&macros=current&fId="
                      ++ ID f)%string /\
                   Raw f = raw).
  { rewrite ParseFindingData_unfold in Hparse.
    destruct (snd (Unmarshal raw Finding_zero)); [discriminate |].
    injection Hparse as <-. repeat split. }
  destruct Hshape as (Hlabel & Hurl & Hraw).
  assert (Hfive : In (ToSeverityLevel f)
                    [SeverityLow; SeverityMedium; SeverityHigh;
                     SeverityCritical; SeverityUnknown]).
  { unfold ToSeverityLevel. cbn [In].
    repeat (match goal with |- context [if ?b then _ else _] => destruct b end);
      tauto. }
  split; [exact Hlabel |]. split; [exact Hurl |].
  rewrite Hlabel. split; [exact Hfive |].
  split.
  { intros Hempty. rewrite Hempty in Hfive. cbn [In] in Hfive.
    repeat (destruct Hfive as [Hfive | Hfive]; [discriminate |]).
    contradiction. }
  split.
  { rewrite Hurl. destruct (AwsConsoleURL (cfg a)); discriminate. }
  split; [exact Hraw |].
  intros w. rewrite Process_unfold, Hparse. split; reflexivity.
Qed.

Lemma ParseFindingData_invariant_witness :
  ParseFindingData sample_app sample_payload = (sample_parsed, nil) /\
  SeverityLabel sample_parsed = ToSeverityLevel sample_parsed /\
  ConsoleURL sample_parsed <> "".
Proof.
  assert (Hparse : ParseFindingData sample_app sample_payload
                   = (sample_parsed, nil))
    by (vm_compute; reflexivity).
  split; [exact Hparse |].
  destruct (ParseFindingData_invariant sample_app sample_payload
              sample_parsed Hparse) as (Hlabel & _ & _ & _ & Hurl & _).
  split; [exact Hlabel | exact Hurl].
Defined.

(* ------------------------------------------------------------------------ *)
(** ** The notifier *)

Lemma CreateThread_run (a : App) (f : Finding) (w : World) :
  CreateThread a f w =
    (slack_api w (posted w) (expected_call a f),
     {| slack_api := slack_api w; files := files w;
        posted := posted w ++ [expected_call a f];
        logged := logged w |}).
Proof. reflexivity. Qed.

(** C6.  [CreateThread] makes one call to the Slack client, on the
    configured channel, and returns its answer.  The blocks of the message
    are, in this order: a header with the title; a section whose fields are
    the severity label, the region and the account, each after its caption;
    a section whose text is the description as plain text; a divider; and
    an actions block with one button, captioned "View in Console", whose
    URL is the console URL of the finding. *)
Theorem CreateThread_message (a : App) (f : Finding) (w : World) :
  exists call,
    posted (snd (CreateThread a f w)) = posted w ++ [call] /\
    fst (CreateThread a f w) = slack_api w (posted w) call /\
    slack.call_token call = slack.token (client a) /\
    slack.call_channelID call = SlackChannel (cfg a) /\
    slack.call_options call =
      [slack.MsgOptionText (Title f) false;
       slack.MsgOptionBlocks
         [slack.NewHeaderBlock
            (Some (slack.NewTextBlockObject "plain_text" (Title f) true false));
          slack.NewSectionBlock None
            [slack.NewTextBlockObject "mrkdwn"
               ("*Severity:* " ++ SeverityLabel f) false false;
             slack.NewTextBlockObject "mrkdwn"
               ("*Region:* " ++ Region f) false false;
             slack.NewTextBlockObject "mrkdwn"
               ("*Account:* " ++ AccountID f) false false]
            None;
          slack.NewSectionBlock
            (Some (slack.NewTextBlockObject "plain_text" (Description f)
                     false false))
            [] None;
          slack.NewDividerBlock;
          slack.NewActionBlock "actions"
            [slack.Button
               {| slack.ActionID := "view"; slack.Value := "";
                  slack.Text :=
                    Some (slack.NewTextBlockObject "plain_text"
                            "View in Console" false false);
                  slack.URL := ConsoleURL f |}]]].
Proof.
  exists (expected_call a f). rewrite CreateThread_run. repeat split.
Qed.

(* ------------------------------------------------------------------------ *)
(** ** The dispatcher *)

(** C3.  [Process] parses, then notifies.  When parsing returns an error,
    [Process] returns it and the world is unchanged: nothing is sent.  When
    parsing succeeds, exactly one call is added to the calls received by
    Slack, namely the call [CreateThread] makes for the parsed finding, and
    [Process] returns what Slack answers to it, be it an error or [nil]. *)
Theorem Process_sequence (a : App) (raw : json.RawMessage) (w : World) :
  (forall err,
     snd (ParseFindingData a raw) = Some err ->
     Process a raw w = (Some err, w)) /\
  (forall f,
     ParseFindingData a raw = (f, nil) ->
     exists call,
       posted (snd (Process a raw w)) = posted w ++ [call] /\
       fst (Process a raw w) = slack_api w (posted w) call /\
       posted (snd (CreateThread a f w)) = posted w ++ [call] /\
       fst (Process a raw w) = fst (CreateThread a f w)).
Proof.
  split.
  - intros err Herr. rewrite Process_unfold.
    destruct (ParseFindingData a raw) as [f e]. cbn in Herr. subst e.
    reflexivity.
  - intros f Hparse. exists (expected_call a f).
    rewrite Process_unfold, Hparse, CreateThread_run. repeat split.
Qed.

(** C8.  Two applications that differ at most in the debug flag return the
    same error or the same success for every payload in every world, and
    Slack receives the same calls.  The flag only adds one line to the log:
    the id and the score of the finding, when parsing succeeded. *)
Theorem Process_debug_observational
    (a a' : App) (raw : json.RawMessage) (w : World) :
  AwsConsoleURL (cfg a) = AwsConsoleURL (cfg a') ->
  SlackToken (cfg a) = SlackToken (cfg a') ->
  SlackChannel (cfg a) = SlackChannel (cfg a') ->
  client a = client a' ->
  fst (Process a raw w) = fst (Process a' raw w) /\
  posted (snd (Process a raw w)) = posted (snd (Process a' raw w)) /\
  (DebugEnabled (cfg a) = false -> logged (snd (Process a raw w)) = logged w) /\
  (DebugEnabled (cfg a) = true ->
   forall f, ParseFindingData a raw = (f, nil) ->
     logged (snd (Process a raw w)) =
       logged w ++ [{| log_format := ("finding id=%s severity=%.1f" ++ String LF "")%string;
                       log_args := [ArgString (ID f); ArgFloat (Severity f)] |}]).
Proof.
  intros Hurl Htoken Hchannel Hclient.
  assert (Hparse : ParseFindingData a raw = ParseFindingData a' raw).
  { rewrite !ParseFindingData_unfold, Hurl. reflexivity. }
  assert (Hcall : forall f, expected_call a f = expected_call a' f).
  { intros f. unfold expected_call. rewrite Hchannel, Hclient. reflexivity. }
  rewrite !Process_unfold, <- Hparse.
  destruct (ParseFindingData a raw) as [f [err |]].
  - repeat split. intros _ g Hg. discriminate.
  - cbn [fst snd posted logged]. rewrite <- Hcall.
    split; [reflexivity |]. split; [reflexivity |].
    split; [intros ->; reflexivity |].
    intros -> g [= <-]. reflexivity.
Qed.

Lemma Process_debug_observational_witness :
  fst (Process sample_app sample_payload failing_world) =
    fst (Process sample_app_debug sample_payload failing_world) /\
  posted (snd (Process sample_app sample_payload failing_world)) =
    posted (snd (Process sample_app_debug sample_payload failing_world)) /\
  logged (snd (Process sample_app sample_payload failing_world)) = [] /\
  length (logged (snd (Process sample_app_debug sample_payload failing_world)))
    = 1.
Proof.
  destruct (Process_debug_observational sample_app sample_app_debug
              sample_payload failing_world eq_refl eq_refl eq_refl eq_refl)
    as (Hres & Hposted & Hquiet & _).
  split; [exact Hres |]. split; [exact Hposted |].
  split; [exact (Hquiet eq_refl) |].
  destruct (Process_debug_observational sample_app_debug sample_app
              sample_payload failing_world eq_refl eq_refl eq_refl eq_refl)
    as (_ & _ & _ & Hline).
  rewrite (Hline eq_refl sample_parsed ltac:(vm_compute; reflexivity)).
  reflexivity.
Defined.

(* ------------------------------------------------------------------------ *)
(** ** Replaying the samples *)

Lemma Process_posts_one (a : App) (raw : json.RawMessage) (w w' : World) :
  Process a raw w = (nil, w') ->
  length (posted w') = S (length (posted w)).
Proof.
  rewrite Process_unfold.
  destruct (ParseFindingData a raw) as [f [err |]]; [discriminate |].
  intros [= _ <-]. cbn [posted]. rewrite length_app. cbn. lia.
Qed.

Lemma succeeds_posted (a : App) (evs : list events.CloudWatchEvent)
    (w w' : World) :
  succeeds a evs w w' ->
  length (posted w') = length (posted w) + length evs.
Proof.
  induction 1 as [w | e rest w w1 w2 Hp _ IH]; cbn [length]; [lia |].
  rewrite IH, (Process_posts_one _ _ _ _ Hp). lia.
Qed.

Lemma process_range_succeeds (a : App) (evs : list events.CloudWatchEvent)
    (w w' : World) :
  succeeds a evs w w' -> process_range a evs w = (nil, w').
Proof.
  induction 1 as [w | e rest w w1 w2 Hp _ IH]; [reflexivity |].
  cbn [process_range]. unfold bind. rewrite Hp. exact IH.
Qed.

Lemma process_range_stops (a : App) (pre : list events.CloudWatchEvent) :
  forall (e : events.CloudWatchEvent) (post : list events.CloudWatchEvent)
         (w w1 w2 : World) (err : error_value),
    succeeds a pre w w1 ->
    Process a (events.Detail e) w1 = (Some err, w2) ->
    process_range a (pre ++ e :: post) w =
      (Some (wrapError ("process id=" ++ events.ID e ++ ": ") err), w2).
Proof.
  intros e post w w1 w2 err Hpre. revert e post w2 err.
  induction Hpre as [w | e0 rest w w1 w3 Hp _ IH]; intros e post w2 err He.
  - cbn [app process_range]. unfold bind. rewrite He. reflexivity.
  - cbn [app process_range]. unfold bind. rewrite Hp. apply IH. exact He.
Qed.

(** Every replay either goes through or stops at a first failing event. *)
Lemma process_range_cases (a : App) (evs : list events.CloudWatchEvent) :
  forall w : World,
    (exists w', succeeds a evs w w') \/
    (exists pre e post w1 err w2,
        evs = pre ++ e :: post /\ succeeds a pre w w1 /\
        Process a (events.Detail e) w1 = (Some err, w2)).
Proof.
  induction evs as [| e rest IH]; intros w.
  - left. exists w. constructor.
  - destruct (Process a (events.Detail e) w) as [[err |] w1] eqn:Hp.
    + right. exists [], e, rest, w, err, w1.
      repeat split; [constructor | exact Hp].
    + destruct (IH w1) as [(w' & Hs) | (pre & e' & post & w2 & err & w3 & -> & Hs & Hf)].
      * left. exists w'. econstructor; eassumption.
      * right. exists (e :: pre), e', post, w2, err, w3.
        repeat split; [econstructor; eassumption | exact Hf].
Qed.

(** C9.  When the samples file is read and decoded into the events [evs],
    [ProcessSamples] passes the payload of each event to [Process], in the
    order of the list.  If every event is processed without an error it
    returns [nil], and one message per event has been sent.  Otherwise it
    stops at the first event whose processing returns an error and returns
    that error wrapped with the id of that event; the world it leaves is the
    one that event left, whatever events follow.  One of the two is always
    the case. *)
Theorem ProcessSamples_replay
    (Unmarshal_events : string -> list events.CloudWatchEvent * error)
    (a : App) (w : World) (data : string)
    (evs : list events.CloudWatchEvent) :
  files w "fixtures/samples.json" = (data, nil) ->
  Unmarshal_events data = (evs, nil) ->
  (forall w',
     succeeds a evs w w' ->
     ProcessSamples Unmarshal_events a w = (nil, w') /\
     length (posted w') = length (posted w) + length evs) /\
  (forall pre e post w1 err w2,
     evs = pre ++ e :: post ->
     succeeds a pre w w1 ->
     Process a (events.Detail e) w1 = (Some err, w2) ->
     ProcessSamples Unmarshal_events a w =
       (Some (wrapError ("process id=" ++ events.ID e ++ ": ") err), w2)) /\
  ((exists w', succeeds a evs w w') \/
   (exists pre e post w1 err w2,
       evs = pre ++ e :: post /\ succeeds a pre w w1 /\
       Process a (events.Detail e) w1 = (Some err, w2))).
Proof.
  intros Hread Hdecode.
  assert (Hrun : ProcessSamples Unmarshal_events a w = process_range a evs w).
  { unfold ProcessSamples, bind, os_ReadFile.
    change ("fixtures" ++ "/" ++ "samples.json")%string
      with "fixtures/samples.json".
    rewrite Hread, Hdecode. reflexivity. }
  rewrite Hrun. split; [| split].
  - intros w' Hs. split.
    + apply process_range_succeeds. exact Hs.
    + apply succeeds_posted with (a := a). exact Hs.
  - intros pre e post w1 err w2 -> Hs He.
    eapply process_range_stops; eassumption.
  - apply process_range_cases.
Qed.

Lemma ProcessSamples_replay_witness :
  files samples_world "fixtures/samples.json" = ("[...]", nil) /\
  sample_decoder "[...]" = (sample_events, nil) /\
  fst (ProcessSamples sample_decoder sample_app samples_world) =
    Some (wrapError "process id=evt-2: "
            (UnmarshalTypeError "string" "severity")) /\
  length (posted (snd (ProcessSamples sample_decoder sample_app samples_world)))
    = 1.
Proof.
  split; [reflexivity |]. split; [reflexivity |].
  destruct (ProcessSamples_replay sample_decoder sample_app samples_world
              "[...]" sample_events eq_refl eq_refl) as (_ & Hstop & _).
  assert (Hfirst : succeeds sample_app
                     [{| events.ID := "evt-1"; events.Detail := sample_payload |}]
                     samples_world
                     (snd (Process sample_app sample_payload samples_world))).
  { econstructor; [| constructor]. vm_compute. reflexivity. }
  rewrite (Hstop
             [{| events.ID := "evt-1"; events.Detail := sample_payload |}]
             {| events.ID := "evt-2"; events.Detail := payload_bad_severity |}
             [{| events.ID := "evt-3"; events.Detail := payload_without_id |}]
             (snd (Process sample_app sample_payload samples_world))
             (UnmarshalTypeError "string" "severity")
             (snd (Process sample_app sample_payload samples_world))
             eq_refl Hfirst eq_refl).
  split; reflexivity.
Defined.

(* ------------------------------------------------------------------------ *)
(** ** More on decoding *)

Lemma object_app (l1 l2 : list (string * json.Value)) :
  forall (f : Finding) (saved : error),
    object (l1 ++ l2) f saved =
      object l2 (fst (object l1 f saved)) (snd (object l1 f saved)).
Proof.
  induction l1 as [| [key v] l1 IH]; intros f saved; [reflexivity |].
  cbn [app object].
  destruct (lookup_field key) as [fld |]; [| apply IH].
  destruct (store fld v f) as [f' err]. apply IH.
Qed.

(** The finding that is built does not depend on the errors met. *)
Lemma object_fst_saved (members : list (string * json.Value)) :
  forall (f : Finding) (saved saved' : error),
    fst (object members f saved) = fst (object members f saved').
Proof.
  induction members as [| [key v] rest IH]; intros f saved saved';
    [reflexivity |].
  cbn [object].
  destruct (lookup_field key) as [fld |]; [| apply IH].
  destruct (store fld v f) as [f' err]. apply IH.
Qed.

(** An error that has been saved is the one returned. *)
Lemma object_saved_some (members : list (string * json.Value)) :
  forall (f : Finding) (e : error_value),
    snd (object members f (Some e)) = Some e.
Proof.
  induction members as [| [key v] rest IH]; intros f e; [reflexivity |].
  cbn [object].
  destruct (lookup_field key) as [fld |]; [| apply IH].
  destruct (store fld v f) as [f' err]. cbn [saveError]. apply IH.
Qed.

(** [Process] depends on the payload through what the decoder makes of
    it. *)
Lemma Process_by_decoding (a : App) (raw raw' : json.RawMessage) (w : World) :
  Unmarshal raw Finding_zero = Unmarshal raw' Finding_zero ->
  Process a raw w = Process a raw' w.
Proof.
  intros H. rewrite !Process_unfold, !ParseFindingData_unfold, H.
  destruct (snd (Unmarshal raw' Finding_zero)); reflexivity.
Qed.

(** X1.  A member whose key denotes no field of the finding is ignored,
    wherever it stands in the object and whatever its value is: [Process]
    returns the same, sends the same and logs the same as for the object
    without that member. *)
Theorem Process_ignores_unknown_member
    (a : App) (pre post : list (string * json.Value))
    (key : string) (v : json.Value) (w : World) :
  lookup_field key = None ->
  Process a (json.RawJSON (json.Object (pre ++ (key, v) :: post))) w =
  Process a (json.RawJSON (json.Object (pre ++ post))) w.
Proof.
  intros Hkey. apply Process_by_decoding. cbn [Unmarshal].
  rewrite !object_app. cbn [object]. rewrite Hkey. reflexivity.
Qed.

Lemma Process_ignores_unknown_member_witness :
  lookup_field "resource" = None /\
  Process sample_app
    (json.RawJSON (json.Object
       ([("id", json.Str "abc123")]
        ++ ("resource", json.Object [("severity", json.Str "x")])
        :: [("severity", json.Number f9_5)]))) quiet_world =
  Process sample_app
    (json.RawJSON (json.Object
       ([("id", json.Str "abc123")] ++ [("severity", json.Number f9_5)])))
    quiet_world.
Proof.
  split; [reflexivity |].
  apply (Process_ignores_unknown_member sample_app
           [("id", json.Str "abc123")] [("severity", json.Number f9_5)]
           "resource" (json.Object [("severity", json.Str "x")]) quiet_world).
  reflexivity.
Defined.

(** X2.  Decoding leaves the derived fields alone: whatever the payload
    is, the severity label and the console URL of the finding decoded into
    are the ones it had before. *)
Theorem Unmarshal_keeps_derived (raw : json.RawMessage) (f : Finding) :
  SeverityLabel (fst (Unmarshal raw f)) = SeverityLabel f /\
  ConsoleURL (fst (Unmarshal raw f)) = ConsoleURL f.
Proof.
  assert (Hstore : forall fld v g,
             SeverityLabel (fst (store fld v g)) = SeverityLabel g /\
             ConsoleURL (fst (store fld v g)) = ConsoleURL g).
  { intros fld v g. destruct fld, v; split; reflexivity. }
  assert (Hobject : forall members g saved,
             SeverityLabel (fst (object members g saved)) = SeverityLabel g /\
             ConsoleURL (fst (object members g saved)) = ConsoleURL g).
  { induction members as [| [key v] rest IH]; intros g saved;
      [split; reflexivity |].
    cbn [object]. destruct (lookup_field key) as [fld |]; [| apply IH].
    destruct (Hstore fld v g) as (Hl & Hu).
    destruct (store fld v g) as [g' err]. cbn [fst] in Hl, Hu.
    destruct (IH g' (saveError saved err)) as (Hl' & Hu').
    split; congruence. }
  destruct raw as [v | bytes]; [| split; reflexivity].
  destruct v; try (split; reflexivity). apply Hobject.
Qed.

Lemma field_eq_dec (x y : field) : {x = y} + {x <> y}.
Proof. decide equality. Qed.

Lemma store_null_or_other (fld fld' : field) (v : json.Value) (f : Finding) :
  (fld' = fld -> v = json.Null) ->
  get_string fld (fst (store fld' v f)) = get_string fld f /\
  (fld = field_severity -> Severity (fst (store fld' v f)) = Severity f).
Proof.
  intros Hnull. destruct (field_eq_dec fld' fld) as [-> | Hne].
  - rewrite (Hnull eq_refl). destruct fld; split; intros; reflexivity.
  - split.
    + apply store_other_string. exact Hne.
    + intros ->. apply store_other_Severity. exact Hne.
Qed.

(** Members that are [null] for a field, or denote another field, leave
    the field as it was. *)
Lemma object_nulls (members : list (string * json.Value)) (fld : field) :
  (forall k v, In (k, v) members -> lookup_field k = Some fld ->
               v = json.Null) ->
  forall (f : Finding) (saved : error),
    get_string fld (fst (object members f saved)) = get_string fld f /\
    (fld = field_severity ->
     Severity (fst (object members f saved)) = Severity f).
Proof.
  induction members as [| [key v] rest IH]; intros Hnull f saved;
    cbn [object]; [split; reflexivity |].
  assert (Hrest : forall k x, In (k, x) rest -> lookup_field k = Some fld ->
                              x = json.Null).
  { intros k x Hin. apply Hnull. right. exact Hin. }
  destruct (lookup_field key) as [fld' |] eqn:Hkey; [| apply IH; exact Hrest].
  destruct (store_null_or_other fld fld' v f) as (Hs & Hv).
  { intros ->. apply (Hnull key v); [left; reflexivity | exact Hkey]. }
  destruct (store fld' v f) as [f' err]. cbn [fst] in Hs, Hv.
  destruct (IH Hrest f' (saveError saved err)) as (Hs' & Hv').
  split; [congruence |]. intros Hf. rewrite (Hv' Hf). apply Hv. exact Hf.
Qed.

(** The finding returned for a decodable payload, field by field. *)
Lemma ParseFindingData_fields (a : App) (raw : json.RawMessage) :
  decodable raw ->
  (forall fld,
     get_string fld (fst (ParseFindingData a raw)) =
     get_string fld (fst (Unmarshal raw Finding_zero))) /\
  Severity (fst (ParseFindingData a raw)) =
    Severity (fst (Unmarshal raw Finding_zero)) /\
  SeverityLabel (fst (ParseFindingData a raw)) =
    ToSeverityLevel (fst (Unmarshal raw Finding_zero)).
Proof.
  intros Hdec. apply (Unmarshal_no_error raw Finding_zero) in Hdec.
  rewrite ParseFindingData_unfold, Hdec. cbn [fst].
  split; [intros fld; destruct fld; reflexivity |]. split; reflexivity.
Qed.

(** X3.  In a decodable object, a string field takes the string of the
    last member that denotes it and is not [null]: members before it are
    overwritten, and [null] members after it change nothing. *)
Theorem ParseFindingData_last_string
    (a : App) (pre post : list (string * json.Value))
    (key s : string) (fld : field) :
  decodable (json.RawJSON (json.Object (pre ++ (key, json.Str s) :: post))) ->
  lookup_field key = Some fld ->
  In fld [field_id; field_accountId; field_region; field_title;
          field_description] ->
  (forall k v, In (k, v) post -> lookup_field k = Some fld -> v = json.Null) ->
  get_string fld
    (fst (ParseFindingData a
            (json.RawJSON (json.Object (pre ++ (key, json.Str s) :: post)))))
  = s.
Proof.
  intros Hdec Hkey Hfld Hpost.
  rewrite (proj1 (ParseFindingData_fields a _ Hdec)).
  cbn [Unmarshal]. rewrite object_app. cbn [object]. rewrite Hkey.
  set (f1 := fst (object pre Finding_zero nil)).
  set (e1 := snd (object pre Finding_zero nil)).
  assert (Hstore : store fld (json.Str s) f1 = (set_string fld s f1, nil)).
  { cbn [In] in Hfld.
    destruct Hfld as [<- | [<- | [<- | [<- | [<- | []]]]]]; reflexivity. }
  rewrite Hstore.
  rewrite (proj1 (object_nulls post fld Hpost _ _)).
  cbn [In] in Hfld.
  destruct Hfld as [<- | [<- | [<- | [<- | [<- | []]]]]]; reflexivity.
Qed.

Lemma ParseFindingData_last_string_witness :
  get_string field_region
    (fst (ParseFindingData sample_app
            (json.RawJSON (json.Object
               ([("region", json.Str "eu-west-1")]
                ++ ("Region", json.Str "us-east-1")
                :: [("REGION", json.Null); ("id", json.Str "abc123")])))))
  = "us-east-1".
Proof.
  apply (ParseFindingData_last_string sample_app
           [("region", json.Str "eu-west-1")]
           [("REGION", json.Null); ("id", json.Str "abc123")]
           "Region" "us-east-1" field_region).
  - intros key v fld Hin. cbn [In app] in Hin.
    repeat (destruct Hin as [[= <- <-] | Hin];
            [intros [= <-]; reflexivity |]).
    contradiction.
  - reflexivity.
  - cbn [In]. tauto.
  - intros k v Hin. cbn [In] in Hin.
    destruct Hin as [[= <- <-] | [[= <- <-] | []]];
      [reflexivity | intros [=]].
Defined.

(** X4.  In a decodable object, the score is the number of the last member
    that denotes [severity] and is not [null], and the label of the finding
    is the classifier's label for that number. *)
Theorem ParseFindingData_last_severity
    (a : App) (pre post : list (string * json.Value))
    (key : string) (x : float64) :
  decodable (json.RawJSON (json.Object (pre ++ (key, json.Number x) :: post))) ->
  lookup_field key = Some field_severity ->
  (forall k v, In (k, v) post -> lookup_field k = Some field_severity ->
               v = json.Null) ->
  Severity
    (fst (ParseFindingData a
            (json.RawJSON (json.Object (pre ++ (key, json.Number x) :: post)))))
  = x /\
  SeverityLabel
    (fst (ParseFindingData a
            (json.RawJSON (json.Object (pre ++ (key, json.Number x) :: post)))))
  = ToSeverityLevel (set_Severity x Finding_zero).
Proof.
  intros Hdec Hkey Hpost.
  destruct (ParseFindingData_fields a _ Hdec) as (_ & Hsev & Hlabel).
  assert (Hx : Severity
                 (fst (Unmarshal
                         (json.RawJSON
                            (json.Object (pre ++ (key, json.Number x) :: post)))
                         Finding_zero)) = x).
  { cbn [Unmarshal]. rewrite object_app. cbn [object]. rewrite Hkey.
    cbn [store].
    rewrite (proj2 (object_nulls post field_severity Hpost _ _) eq_refl).
    reflexivity. }
  split; [rewrite Hsev; exact Hx |].
  rewrite Hlabel. unfold ToSeverityLevel. rewrite Hx. reflexivity.
Qed.

Lemma ParseFindingData_last_severity_witness :
  SeverityLabel
    (fst (ParseFindingData sample_app
            (json.RawJSON (json.Object
               ([("severity", json.Number (of_Z 4))]
                ++ ("Severity", json.Number f9_5)
                :: [("severity", json.Null)])))))
  = SeverityCritical.
Proof.
  refine (proj2 (ParseFindingData_last_severity sample_app
                   [("severity", json.Number (of_Z 4))]
                   [("severity", json.Null)] "Severity" f9_5 _ _ _)).
  - intros key v fld Hin. cbn [In app] in Hin.
    repeat (destruct Hin as [[= <- <-] | Hin];
            [intros [= <-]; reflexivity |]).
    contradiction.
  - reflexivity.
  - intros k v Hin. cbn [In] in Hin.
    destruct Hin as [[= <- <-] | []]. reflexivity.
Defined.

Lemma store_rejects (fld : field) (v : json.Value) (f : Finding) :
  accepts fld v = false ->
  exists Value,
    snd (store fld v f) = Some (UnmarshalTypeError Value (field_name fld)) /\
    (Value = json.kind v \/
     exists literal,
       v = json.NumberOutOfRange literal /\ fld = field_severity /\
       Value = ("number " ++ literal)%string).
Proof.
  destruct fld, v; cbn; intros H; try discriminate;
    try (eexists; split; [reflexivity | left; reflexivity]).
  eexists. split; [reflexivity |]. right. eexists. repeat split.
Qed.

(** X5.  The error returned for an object is the one of its first member,
    in document order, whose value its field does not accept: an
    [UnmarshalTypeError] that describes that value, whatever the members
    after it are, and that names the field by the key of that member when
    the key is spelled as the JSON name of the field. *)
Theorem ParseFindingData_first_error
    (a : App) (pre post : list (string * json.Value))
    (key : string) (v : json.Value) (fld : field) :
  (forall k x g, In (k, x) pre -> lookup_field k = Some g ->
                 accepts g x = true) ->
  lookup_field key = Some fld ->
  accepts fld v = false ->
  exists Value Field,
    ParseFindingData a (json.RawJSON (json.Object (pre ++ (key, v) :: post))) =
      (Finding_zero, Some (UnmarshalTypeError Value Field)) /\
    (key = field_name fld -> Field = key) /\
    (Value = json.kind v \/
     exists literal,
       v = json.NumberOutOfRange literal /\ fld = field_severity /\
       Value = ("number " ++ literal)%string).
Proof.
  intros Hpre Hkey Hrej.
  set (f1 := fst (object pre Finding_zero nil)).
  destruct (store_rejects fld v f1 Hrej) as (Value & Hstore & Hshape).
  exists Value, (field_name fld).
  split; [| split; [intros ->; reflexivity | exact Hshape]].
  rewrite ParseFindingData_unfold. cbn [Unmarshal].
  rewrite object_app. cbn [object]. rewrite Hkey. fold f1.
  assert (Hsaved : snd (object pre Finding_zero nil) = nil).
  { apply object_no_error. split; [reflexivity | exact Hpre]. }
  rewrite Hsaved.
  destruct (store fld v f1) as [f' err]. cbn [snd] in Hstore. subst err.
  cbn [saveError nil]. rewrite object_saved_some. reflexivity.
Qed.

Lemma ParseFindingData_first_error_witness :
  exists Value Field,
    ParseFindingData sample_app
      (json.RawJSON (json.Object
         ([("id", json.Str "abc123")]
          ++ ("severity", json.Str "high") :: [("title", json.Bool true)]))) =
      (Finding_zero, Some (UnmarshalTypeError Value Field)) /\
    ("severity" = "severity" -> Field = "severity") /\
    (Value = "string" \/
     exists literal,
       json.Str "high" = json.NumberOutOfRange literal /\
       field_severity = field_severity /\
       Value = ("number " ++ literal)%string).
Proof.
  apply (ParseFindingData_first_error sample_app
           [("id", json.Str "abc123")] [("title", json.Bool true)]
           "severity" (json.Str "high") field_severity).
  - intros k x g Hin. cbn [In] in Hin.
    destruct Hin as [[= <- <-] | []]. intros [= <-]. reflexivity.
  - reflexivity.
  - reflexivity.
Defined.

Lemma upper_not_lower (c : ascii) : json.upper (json.upper c) = json.upper c.
Proof. destruct c as [[] [] [] [] [] [] [] []]; reflexivity. Qed.

(** Upper-casing changes letters into letters: a byte that is none comes
    from itself only. *)
Lemma upper_high (c : ascii) :
  (json.upper c = "197"%char -> c = "197"%char) /\
  (json.upper c = "191"%char -> c = "191"%char) /\
  (json.upper c = "226"%char -> c = "226"%char) /\
  (json.upper c = "132"%char -> c = "132"%char) /\
  (json.upper c = "170"%char -> c = "170"%char).
Proof.
  destruct c as [[] [] [] [] [] [] [] []];
    repeat split; intros H; first [reflexivity | discriminate H].
Qed.

(** [foldName] on a string that begins with neither of the two runes it
    replaces. *)
Lemma foldName_other (c : ascii) (s : string) :
  (c = "197"%char -> forall rest, s <> String "191"%char rest) ->
  (c = "226"%char ->
   forall rest, s <> String "132"%char (String "170"%char rest)) ->
  json.foldName (String c s) = String (json.upper c) (json.foldName s).
Proof.
  intros HS HK.
  destruct (Ascii.eqb_spec c "197"%char) as [-> | Hc1].
  { destruct s as [| c2 rest]; [reflexivity |].
    destruct (Ascii.eqb_spec c2 "191"%char) as [-> | Hc2];
      [destruct (HS eq_refl rest eq_refl) |].
    destruct c2 as [[] [] [] [] [] [] [] []];
      first [reflexivity | destruct (Hc2 eq_refl)]. }
  destruct (Ascii.eqb_spec c "226"%char) as [-> | Hc2].
  { destruct s as [| c2 [| c3 rest]]; [reflexivity | |].
    - destruct c2 as [[] [] [] [] [] [] [] []]; reflexivity.
    - destruct (Ascii.eqb_spec c2 "132"%char) as [-> | Hc3].
      + destruct (Ascii.eqb_spec c3 "170"%char) as [-> | Hc4];
          [destruct (HK eq_refl rest eq_refl) |].
        destruct c3 as [[] [] [] [] [] [] [] []];
          first [reflexivity | destruct (Hc4 eq_refl)].
      + destruct c2 as [[] [] [] [] [] [] [] []];
          first [reflexivity | destruct (Hc3 eq_refl)]. }
  destruct c as [[] [] [] [] [] [] [] []];
    first [reflexivity | destruct (Hc1 eq_refl) | destruct (Hc2 eq_refl)].
Qed.

Lemma foldName_to_upper_other (c : ascii) (s : string) :
  (c = "197"%char -> forall rest, s <> String "191"%char rest) ->
  (c = "226"%char ->
   forall rest, s <> String "132"%char (String "170"%char rest)) ->
  json.foldName (to_upper s) = json.foldName s ->
  json.foldName (to_upper (String c s)) = json.foldName (String c s).
Proof.
  intros HS HK IH. cbn [to_upper].
  rewrite (foldName_other c s HS HK).
  rewrite (foldName_other (json.upper c) (to_upper s)).
  - rewrite upper_not_lower, IH. reflexivity.
  - intros E rest. apply upper_high in E.
    destruct s as [| c2 s2]; cbn [to_upper]; [discriminate |].
    intros [= E2 _]. apply upper_high in E2. subst c2.
    exact (HS E s2 eq_refl).
  - intros E rest. apply upper_high in E.
    destruct s as [| c2 [| c3 s3]]; cbn [to_upper]; try discriminate.
    intros [= E2 E3 _]. apply upper_high in E2. apply upper_high in E3.
    subst c2 c3. exact (HK E s3 eq_refl).
Qed.

Lemma foldName_to_upper_bounded (n : nat) :
  forall s : string,
    String.length s <= n -> json.foldName (to_upper s) = json.foldName s.
Proof.
  induction n as [| n IH]; intros s Hlen.
  { destruct s; [reflexivity | cbn in Hlen; lia]. }
  destruct s as [| c s]; [reflexivity |]. cbn [String.length] in Hlen.
  assert (IHs : json.foldName (to_upper s) = json.foldName s)
    by (apply IH; lia).
  destruct (Ascii.eqb_spec c "197"%char) as [-> | Hc1].
  { destruct s as [| c2 rest];
      [apply foldName_to_upper_other; [discriminate | discriminate | exact IHs] |].
    destruct (Ascii.eqb_spec c2 "191"%char) as [-> | Hc2].
    - cbn [String.length] in Hlen.
      change (String "S"%char (json.foldName (to_upper rest)) =
              String "S"%char (json.foldName rest)).
      rewrite IH by lia. reflexivity.
    - apply foldName_to_upper_other; [| discriminate | exact IHs].
      intros _ rest' [= E _]. exact (Hc2 E). }
  destruct (Ascii.eqb_spec c "226"%char) as [-> | Hc2].
  { destruct s as [| c2 [| c3 rest]];
      try (apply foldName_to_upper_other;
           [discriminate | discriminate | exact IHs]).
    destruct (Ascii.eqb_spec c2 "132"%char) as [-> | Hc3];
      [destruct (Ascii.eqb_spec c3 "170"%char) as [-> | Hc4] |].
    - cbn [String.length] in Hlen.
      change (String "K"%char (json.foldName (to_upper rest)) =
              String "K"%char (json.foldName rest)).
      rewrite IH by lia. reflexivity.
    - apply foldName_to_upper_other; [discriminate | | exact IHs].
      intros _ rest' [= E]. exact (Hc4 E).
    - apply foldName_to_upper_other; [discriminate | | exact IHs].
      intros _ rest' [= E _]. exact (Hc3 E). }
  apply foldName_to_upper_other; [| | exact IHs].
  - intros E. destruct (Hc1 E).
  - intros E. destruct (Hc2 E).
Qed.

(** X6.  The case of the ASCII letters of a key does not matter: two keys
    that become the same string when their ASCII letters are upper-cased
    denote the same field of the finding, or both denote none. *)
Theorem lookup_field_ignores_case (key key' : string) :
  to_upper key = to_upper key' ->
  lookup_field key = lookup_field key'.
Proof.
  intros H. unfold lookup_field.
  rewrite <- (foldName_to_upper_bounded _ key (le_n _)).
  rewrite <- (foldName_to_upper_bounded _ key' (le_n _)).
  rewrite H. reflexivity.
Qed.

Lemma lookup_field_ignores_case_witness :
  lookup_field "ACCOUNTID" = lookup_field "accountId" /\
  lookup_field "accountId" = Some field_accountId.
Proof.
  split; [| reflexivity].
  apply lookup_field_ignores_case. reflexivity.
Defined.

(** Stores into two different fields can be done in either order. *)
Lemma store_commute (fld fld' : field) (v v' : json.Value) (f : Finding) :
  fld <> fld' ->
  fst (store fld' v' (fst (store fld v f))) =
  fst (store fld v (fst (store fld' v' f))).
Proof.
  intros Hne.
  destruct fld, fld'; try congruence; destruct v, v'; reflexivity.
Qed.

Lemma denoted_cons (key : string) (v : json.Value)
    (rest : list (string * json.Value)) :
  denoted ((key, v) :: rest) =
    match lookup_field key with
    | Some fld => fld :: denoted rest
    | None => denoted rest
    end.
Proof. reflexivity. Qed.

Lemma object_permutation (members members' : list (string * json.Value)) :
  members ≡ₚ members' ->
  NoDup (denoted members) ->
  forall f : Finding,
    fst (object members f nil) = fst (object members' f nil).
Proof.
  induction 1 as [| [key v] l l' Hperm IH
                  | [key v] [key' v'] l
                  | l l' l'' Hperm IH Hperm' IH'];
    intros Hnodup f.
  - reflexivity.
  - rewrite denoted_cons in Hnodup. cbn [object].
    destruct (lookup_field key) as [fld |]; [| apply IH; exact Hnodup].
    apply NoDup_cons in Hnodup as (_ & Hnodup).
    destruct (store fld v f) as [f' err].
    rewrite (object_fst_saved l f' _ nil), (object_fst_saved l' f' _ nil).
    apply IH. exact Hnodup.
  - rewrite !denoted_cons in Hnodup. cbn [object].
    destruct (lookup_field key') as [fld' |] eqn:Hkey';
      destruct (lookup_field key) as [fld |] eqn:Hkey; try reflexivity.
    assert (Hne : fld <> fld').
    { apply NoDup_cons in Hnodup as (Hnotin & _).
      intros ->. apply Hnotin. left. }
    pose proof (store_commute fld fld' v v' f Hne) as Hcomm.
    destruct (store fld' v' f) as [f1 e1].
    destruct (store fld v f) as [f2 e2]. cbn [fst] in Hcomm.
    destruct (store fld v f1) as [f3 e3].
    destruct (store fld' v' f2) as [f4 e4]. cbn [fst] in Hcomm. subst f4.
    apply object_fst_saved.
  - rewrite (IH Hnodup f). apply IH'.
    unfold denoted in *. rewrite <- Hperm. exact Hnodup.
Qed.

(** X7.  The order of the members of a decodable object does not matter
    when no two of them denote the same field: [Process] returns the same,
    sends the same and logs the same for every rearrangement. *)
Theorem Process_member_order
    (a : App) (members members' : list (string * json.Value)) (w : World) :
  members ≡ₚ members' ->
  NoDup (denoted members) ->
  decodable (json.RawJSON (json.Object members)) ->
  Process a (json.RawJSON (json.Object members)) w =
  Process a (json.RawJSON (json.Object members')) w.
Proof.
  intros Hperm Hnodup Hdec.
  assert (Hdec' : decodable (json.RawJSON (json.Object members'))).
  { cbn [decodable] in *. intros key v fld Hin. apply Hdec.
    apply (Permutation_in _ (Permutation_sym Hperm)). exact Hin. }
  apply Process_by_decoding.
  apply (Unmarshal_no_error _ Finding_zero) in Hdec, Hdec'.
  pose proof (object_permutation members members' Hperm Hnodup Finding_zero)
    as Hfst.
  cbn [Unmarshal] in *.
  destruct (object members Finding_zero nil) as [f1 e1].
  destruct (object members' Finding_zero nil) as [f2 e2].
  cbn [fst snd] in *. congruence.
Qed.

Lemma Process_member_order_witness :
  Process sample_app
    (json.RawJSON (json.Object
       [("id", json.Str "abc123"); ("region", json.Str "us-east-1");
        ("severity", json.Number f9_5)])) quiet_world =
  Process sample_app
    (json.RawJSON (json.Object
       [("severity", json.Number f9_5); ("id", json.Str "abc123");
        ("region", json.Str "us-east-1")])) quiet_world.
Proof.
  apply Process_member_order.
  - change [("severity", json.Number f9_5); ("id", json.Str "abc123");
            ("region", json.Str "us-east-1")]
      with ([("severity", json.Number f9_5)]
            ++ [("id", json.Str "abc123"); ("region", json.Str "us-east-1")]).
    change [("id", json.Str "abc123"); ("region", json.Str "us-east-1");
            ("severity", json.Number f9_5)]
      with ([("id", json.Str "abc123"); ("region", json.Str "us-east-1")]
            ++ [("severity", json.Number f9_5)]).
    apply Permutation_app_comm.
  - change (NoDup [field_id; field_region; field_severity]).
    repeat (apply NoDup_cons; split;
            [intros Hin; repeat (apply elem_of_cons in Hin as [[=] | Hin]);
             apply elem_of_nil in Hin; exact Hin |]).
    apply NoDup_nil. exact I.
  - intros key v fld Hin. cbn [In] in Hin.
    repeat (destruct Hin as [[= <- <-] | Hin];
            [intros [= <-]; reflexivity |]).
    contradiction.
Defined.

(* ------------------------------------------------------------------------ *)
(** ** More on the classifier *)

(** X8.  Up to the score 10 the classifier is monotone: of two findings
    with finite scores, the one with the greater score, if that score is at
    most 10, has a label that is at least as severe. *)
Theorem ToSeverityLevel_monotone (f g : Finding) :
  valid (Severity f) = true -> is_finite (Severity f) = true ->
  valid (Severity g) = true -> is_finite (Severity g) = true ->
  (to_Q (Severity f) <= to_Q (Severity g))%Q ->
  (to_Q (Severity g) <= 10)%Q ->
  severity_rank (ToSeverityLevel f) <= severity_rank (ToSeverityLevel g).
Proof.
  intros Hvf Hff Hvg Hfg Hle Hmax.
  rewrite (ToSeverityLevel_finite f Hvf Hff), (ToSeverityLevel_finite g Hvg Hfg).
  repeat (destruct (Qlt_le_dec _ _)); try lra; vm_compute; lia.
Qed.

Lemma ToSeverityLevel_monotone_witness :
  severity_rank (ToSeverityLevel (set_Severity (of_Z 4) Finding_zero))
  <= severity_rank (ToSeverityLevel sample_critical).
Proof.
  apply ToSeverityLevel_monotone; try reflexivity; vm_compute; discriminate.
Defined.

(* ------------------------------------------------------------------------ *)
(** ** More on the configuration *)

(** [BuildConfig] sees the environment through [Getenv] only. *)
Lemma BuildConfig_ext (env env' : gmap string string) :
  (forall key, Getenv env key = Getenv env' key) ->
  BuildConfig env = BuildConfig env'.
Proof. intros H. unfold BuildConfig. rewrite !H. reflexivity. Qed.

Lemma BuildConfig_success (env : gmap string string) (c : Config) :
  BuildConfig env = (c, nil) ->
  c = {| DebugEnabled := String.eqb (Getenv env "APP_DEBUG_ENABLED") "true";
         AwsConsoleURL := Getenv env "APP_AWS_CONSOLE_URL";
         SlackToken := Getenv env "APP_SLACK_TOKEN";
         SlackChannel := Getenv env "APP_SLACK_CHANNEL" |} /\
  Getenv env "APP_SLACK_TOKEN" <> "" /\
  Getenv env "APP_SLACK_CHANNEL" <> "" /\
  Getenv env "APP_AWS_CONSOLE_URL" <> "".
Proof.
  unfold BuildConfig. cbn [SlackToken SlackChannel AwsConsoleURL].
  destruct (String.eqb_spec (Getenv env "APP_SLACK_TOKEN") "");
    [discriminate |].
  destruct (String.eqb_spec (Getenv env "APP_SLACK_CHANNEL") "");
    [discriminate |].
  destruct (String.eqb_spec (Getenv env "APP_AWS_CONSOLE_URL") "");
    [discriminate |].
  intros [= <-]. repeat split; assumption.
Qed.

(** X9.  A variable that is set to the empty string counts as one that is
    not set: [BuildConfig] returns the same for both environments, be it
    the same configuration or the same error. *)
Theorem BuildConfig_empty_is_unset (env : gmap string string) (key : string) :
  BuildConfig (<[key := ""]> env) = BuildConfig (delete key env).
Proof.
  apply BuildConfig_ext. intros k. unfold Getenv.
  destruct (decide (key = k)) as [-> | Hne].
  - rewrite lookup_insert_eq, lookup_delete_eq. reflexivity.
  - rewrite lookup_insert_ne, lookup_delete_ne by exact Hne. reflexivity.
Qed.

(** X10.  An application built from a configuration that [BuildConfig]
    returned sends, for every payload, at most one message, and that
    message carries the token and the channel of the environment, neither
    of which is empty. *)
Theorem NewApp_routes_by_environment
    (env : gmap string string) (c : Config)
    (raw : json.RawMessage) (w : World) :
  BuildConfig env = (c, nil) ->
  posted (snd (Process (NewApp c) raw w)) = posted w \/
  exists call,
    posted (snd (Process (NewApp c) raw w)) = posted w ++ [call] /\
    slack.call_token call = Getenv env "APP_SLACK_TOKEN" /\
    slack.call_channelID call = Getenv env "APP_SLACK_CHANNEL" /\
    slack.call_token call <> "" /\
    slack.call_channelID call <> "".
Proof.
  intros Hcfg.
  apply BuildConfig_success in Hcfg as (-> & Htoken & Hchannel & _).
  rewrite Process_unfold.
  destruct (ParseFindingData _ raw) as [f [err |]]; [left; reflexivity |].
  right. eexists. split; [reflexivity |]. repeat split; assumption.
Qed.

Lemma NewApp_routes_by_environment_witness :
  exists call,
    posted (snd (Process (NewApp sample_cfg) sample_payload quiet_world))
    = [call] /\
    slack.call_token call = "xoxb-token" /\
    slack.call_channelID call = "C000XXXXXXX".
Proof.
  destruct (NewApp_routes_by_environment
              (<["APP_SLACK_TOKEN" := "xoxb-token"]>
                 (<["APP_SLACK_CHANNEL" := "C000XXXXXXX"]>
                    (<["APP_AWS_CONSOLE_URL" :=
                         "https://us-east-1.console.aws.amazon.com"]> ∅)))
              sample_cfg sample_payload quiet_world)
    as [Hnone | (call & Hposted & Htoken & Hchannel & _)].
  - vm_compute. reflexivity.
  - vm_compute in Hnone. discriminate.
  - exists call. split; [exact Hposted |]. split; assumption.
Defined.

(* ------------------------------------------------------------------------ *)
(** ** More on the dispatcher and the replay *)

(** X11.  Nothing is remembered between two calls of [Process]: a payload
    that is parsed and processed twice in a row is sent twice, as two equal
    messages, whatever Slack answered to the first. *)
Theorem Process_twice_sends_twice
    (a : App) (raw : json.RawMessage) (f : Finding) (w : World) :
  ParseFindingData a raw = (f, nil) ->
  exists call,
    posted (snd (Process a raw w)) = posted w ++ [call] /\
    posted (snd (Process a raw (snd (Process a raw w)))) =
      posted w ++ [call; call].
Proof.
  intros Hparse. exists (expected_call a f).
  rewrite !Process_unfold, Hparse. cbn [nil snd posted].
  split; [reflexivity |]. rewrite <- app_assoc. reflexivity.
Qed.

Lemma Process_twice_sends_twice_witness :
  length
    (posted (snd (Process sample_app sample_payload
                    (snd (Process sample_app sample_payload failing_world)))))
  = 2.
Proof.
  destruct (Process_twice_sends_twice sample_app sample_payload sample_parsed
              failing_world ltac:(vm_compute; reflexivity))
    as (call & _ & Htwice).
  rewrite Htwice. reflexivity.
Defined.

(** The world after [Process], by the two ways it can end in an error. *)
Lemma Process_failure (a : App) (raw : json.RawMessage)
    (w w' : World) (err : error_value) :
  Process a raw w = (Some err, w') ->
  (snd (ParseFindingData a raw) = Some err /\ w' = w) \/
  (snd (ParseFindingData a raw) = nil /\
   length (posted w') = S (length (posted w)) /\
   exists call, posted w' = posted w ++ [call] /\
                slack_api w (posted w) call = Some err).
Proof.
  rewrite Process_unfold.
  destruct (ParseFindingData a raw) as [f [e |]].
  - intros [= <- <-]. left. split; reflexivity.
  - intros [= Hanswer <-]. right. split; [reflexivity |]. cbn [posted]. split.
    + rewrite length_app. cbn. lia.
    + eexists. split; [reflexivity | exact Hanswer].
Qed.

Lemma ProcessSamples_run
    (Unmarshal_events : string -> list events.CloudWatchEvent * error)
    (a : App) (w : World) (data : string)
    (evs : list events.CloudWatchEvent) :
  files w "fixtures/samples.json" = (data, nil) ->
  Unmarshal_events data = (evs, nil) ->
  ProcessSamples Unmarshal_events a w = process_range a evs w.
Proof.
  intros Hread Hdecode. unfold ProcessSamples, bind, os_ReadFile.
  change ("fixtures" ++ "/" ++ "samples.json")%string
    with "fixtures/samples.json".
  rewrite Hread, Hdecode. reflexivity.
Qed.

(** X12.  When the replay of the samples stops at an event, Slack has
    received one message for each event before it, and one more exactly
    when the payload of that event was parsed and it was the delivery that
    failed; in that case the error wrapped is the answer of Slack. *)
Theorem ProcessSamples_messages_at_failure
    (Unmarshal_events : string -> list events.CloudWatchEvent * error)
    (a : App) (w : World) (data : string)
    (pre post : list events.CloudWatchEvent) (e : events.CloudWatchEvent)
    (w1 w2 : World) (err : error_value) :
  files w "fixtures/samples.json" = (data, nil) ->
  Unmarshal_events data = (pre ++ e :: post, nil) ->
  succeeds a pre w w1 ->
  Process a (events.Detail e) w1 = (Some err, w2) ->
  snd (ProcessSamples Unmarshal_events a w) = w2 /\
  ((snd (ParseFindingData a (events.Detail e)) = Some err /\
    length (posted w2) = length (posted w) + length pre) \/
   (snd (ParseFindingData a (events.Detail e)) = nil /\
    length (posted w2) = length (posted w) + length pre + 1 /\
    exists call, posted w2 = posted w1 ++ [call] /\
                 slack_api w1 (posted w1) call = Some err)).
Proof.
  intros Hread Hdecode Hpre Hfail. split.
  - rewrite (ProcessSamples_run _ a w data _ Hread Hdecode).
    rewrite (process_range_stops a pre e post w w1 w2 err Hpre Hfail).
    reflexivity.
  - pose proof (succeeds_posted a pre w w1 Hpre) as Hcount.
    destruct (Process_failure a _ w1 w2 err Hfail)
      as [(Hparse & ->) | (Hparse & Hlen & Hcall)].
    + left. split; [exact Hparse | exact Hcount].
    + right. split; [exact Hparse |]. split; [lia | exact Hcall].
Qed.

Lemma ProcessSamples_messages_at_failure_witness :
  length (posted (snd (ProcessSamples sample_decoder sample_app samples_world)))
  = 1.
Proof.
  assert (Hfirst : succeeds sample_app
                     [{| events.ID := "evt-1"; events.Detail := sample_payload |}]
                     samples_world
                     (snd (Process sample_app sample_payload samples_world))).
  { econstructor; [| constructor]. vm_compute. reflexivity. }
  destruct (ProcessSamples_messages_at_failure sample_decoder sample_app
              samples_world "[...]"
              [{| events.ID := "evt-1"; events.Detail := sample_payload |}]
              [{| events.ID := "evt-3"; events.Detail := payload_without_id |}]
              {| events.ID := "evt-2"; events.Detail := payload_bad_severity |}
              (snd (Process sample_app sample_payload samples_world))
              (snd (Process sample_app sample_payload samples_world))
              (UnmarshalTypeError "string" "severity")
              eq_refl eq_refl Hfirst eq_refl) as (-> & _).
  reflexivity.
Defined.

(** X13.  Every error of [ProcessSamples] is wrapped with the stage it
    comes from: reading the samples file, decoding it, or processing one of
    the events read, which the message names by its id.  When reading or
    decoding fails the world is left as it was: no event is processed. *)
Theorem ProcessSamples_error_stage
    (Unmarshal_events : string -> list events.CloudWatchEvent * error)
    (a : App) (w : World) (err : error_value) :
  fst (ProcessSamples Unmarshal_events a w) = Some err ->
  exists cause,
    (snd (files w "fixtures/samples.json") = Some cause /\
     err = wrapError "read fixtures/samples.json: " cause /\
     snd (ProcessSamples Unmarshal_events a w) = w) \/
    (exists data,
        files w "fixtures/samples.json" = (data, nil) /\
        snd (Unmarshal_events data) = Some cause /\
        err = wrapError "parse samples.json: " cause /\
        snd (ProcessSamples Unmarshal_events a w) = w) \/
    (exists data e,
        files w "fixtures/samples.json" = (data, nil) /\
        snd (Unmarshal_events data) = nil /\
        In e (fst (Unmarshal_events data)) /\
        err = wrapError ("process id=" ++ events.ID e ++ ": ") cause).
Proof.
  destruct (files w "fixtures/samples.json") as [data [c |]] eqn:Hread.
  { intros Herr. exists c. left.
    unfold ProcessSamples, bind, os_ReadFile in *.
    change ("fixtures" ++ "/" ++ "samples.json")%string
      with "fixtures/samples.json" in *.
    rewrite Hread in *. cbn in Herr. injection Herr as <-.
    repeat split. }
  destruct (Unmarshal_events data) as [evs [c |]] eqn:Hdecode.
  { intros Herr. exists c. right. left. exists data.
    unfold ProcessSamples, bind, os_ReadFile in *.
    change ("fixtures" ++ "/" ++ "samples.json")%string
      with "fixtures/samples.json" in *.
    rewrite Hread, Hdecode in *. cbn in Herr. injection Herr as <-.
    repeat split. }
  rewrite (ProcessSamples_run _ a w data evs Hread Hdecode).
  destruct (process_range_cases a evs w)
    as [(w' & Hs) | (pre & e & post & w1 & c & w2 & -> & Hs & Hf)].
  - rewrite (process_range_succeeds a evs w w' Hs). discriminate.
  - rewrite (process_range_stops a pre e post w w1 w2 c Hs Hf).
    intros [= <-]. exists c. right. right. exists data, e.
    rewrite Hdecode. cbn [fst snd].
    repeat split. apply in_or_app. right. left. reflexivity.
Qed.

Lemma ProcessSamples_error_stage_witness :
  fst (ProcessSamples sample_decoder sample_app quiet_world) =
    Some (wrapError "read fixtures/samples.json: "
            (ClientError "no such file")) /\
  exists cause : error_value,
    wrapError "read fixtures/samples.json: " (ClientError "no such file") =
    wrapError "read fixtures/samples.json: " cause /\
    snd (ProcessSamples sample_decoder sample_app quiet_world) = quiet_world.
Proof.
  split; [reflexivity |].
  destruct (ProcessSamples_error_stage sample_decoder sample_app quiet_world
              (wrapError "read fixtures/samples.json: "
                 (ClientError "no such file")) eq_refl)
    as (cause & [(_ & Herr & Hworld)
                | [(data & Hfile & _) | (data & e & Hfile & _)]]).
  - exists cause. split; [exact Herr | exact Hworld].
  - discriminate Hfile.
  - discriminate Hfile.
Defined.

(* ------------------------------------------------------------------------ *)
(** ** The Lambda entry point *)

(** [Process] reads the world through the Slack service and the calls
    made so far; in particular what has been logged plays no part. *)
Lemma Process_frame (a : App) (raw : json.RawMessage) (w w' : World) :
  slack_api w = slack_api w' -> posted w = posted w' ->
  fst (Process a raw w) = fst (Process a raw w') /\
  posted (snd (Process a raw w)) = posted (snd (Process a raw w')).
Proof.
  intros Hapi Hposted. rewrite !Process_unfold.
  destruct (ParseFindingData a raw) as [f [err |]]; cbn [fst snd posted].
  - split; [reflexivity | exact Hposted].
  - rewrite Hapi, Hposted. split; reflexivity.
Qed.

(** [Process] only adds to the log. *)
Lemma Process_logged (a : App) (raw : json.RawMessage) (w : World) :
  exists lines, logged (snd (Process a raw w)) = logged w ++ lines.
Proof.
  rewrite Process_unfold.
  destruct (ParseFindingData a raw) as [f [err |]]; cbn [snd logged].
  - exists []. rewrite app_nil_r. reflexivity.
  - destruct (DebugEnabled (cfg a)).
    + eexists. reflexivity.
    + exists []. rewrite app_nil_r. reflexivity.
Qed.

Section Handler.

Variable Marshal_event : events.CloudWatchEvent -> string * error.
Variable Error : error_value -> string.

Lemma after_dump_frame (evt : events.CloudWatchEvent) (w : World) :
  slack_api (after_dump Marshal_event Error evt w) = slack_api w /\
  files (after_dump Marshal_event Error evt w) = files w /\
  posted (after_dump Marshal_event Error evt w) = posted w /\
  exists lines,
    logged (after_dump Marshal_event Error evt w) =
      logged w ++ lines ++
      [{| log_format := "%s";
          log_args := [ArgString (fst (Marshal_event evt))] |}].
Proof.
  unfold after_dump. destruct (Marshal_event evt) as [evtJson [err |]];
    cbn; repeat split.
  - eexists [_]. rewrite <- app_assoc. reflexivity.
  - exists []. reflexivity.
Qed.

(** The first call in a process. *)
Lemma once_Do_first (env : gmap string string) :
  once_Do (initialise env) global.zero =
    match BuildConfig env with
    | (_, Some err) => failed err
    | (c, None) => initialised c
    end.
Proof.
  unfold once_Do, initialise. cbn [global.once global.zero].
  destruct (BuildConfig env) as [c [err |]]; reflexivity.
Qed.

(** A call after the function of [once] has run. *)
Lemma once_Do_again (env : gmap string string) (g : global.vars) :
  global.once g = true -> once_Do (initialise env) g = g.
Proof. intros H. unfold once_Do. rewrite H. reflexivity. Qed.

(** The handler, by the variables that [once.Do] leaves. *)
Lemma LambdaHandler_run (env : gmap string string)
    (evt : events.CloudWatchEvent) (g : global.vars) (w : World) :
  LambdaHandler Marshal_event Error env evt g w =
    let g' := once_Do (initialise env) g in
    match global.initErr g' with
    | Some err => (Return (Some err), g', w)
    | None =>
        match global.app g' with
        | None => (Panic, g', after_dump Marshal_event Error evt w)
        | Some a =>
            (Return (fst (Process a (events.Detail evt)
                            (after_dump Marshal_event Error evt w))),
             g',
             snd (Process a (events.Detail evt)
                    (after_dump Marshal_event Error evt w)))
        end
    end.
Proof.
  unfold LambdaHandler, after_dump. cbv zeta.
  destruct (global.initErr (once_Do (initialise env) g)); [reflexivity |].
  destruct (Marshal_event evt) as [evtJson [err |]]; cbn [fst snd];
    destruct (global.app (once_Do (initialise env) g)) as [a |];
    unfold bind; cbn [log_Printf log_Print ret fst snd];
    try reflexivity;
    match goal with
    | |- context [Process ?a ?r ?w] => destruct (Process a r w); reflexivity
    end.
Qed.

End Handler.

Lemma invocations_failed
    (Marshal_event : events.CloudWatchEvent -> string * error)
    (Error : error_value -> string) (err : error_value)
    (reqs : list (gmap string string * events.CloudWatchEvent)) :
  forall w : World,
    invocations Marshal_event Error reqs (failed err) w =
      (replicate (length reqs) (Return (Some err)), failed err, w).
Proof.
  induction reqs as [| [env evt] rest IH]; intros w; [reflexivity |].
  cbn [invocations]. unfold bind at 1.
  rewrite LambdaHandler_run, once_Do_again by reflexivity.
  cbn [failed global.initErr]. unfold bind. rewrite IH. reflexivity.
Qed.

(** X14.  A failed initialisation is final.  When the configuration cannot
    be built at the first call of the handler, that call and every later
    call in the process returns the error of [BuildConfig], whatever the
    events are and whatever the environment has become; nothing is logged
    and nothing is sent. *)
Theorem LambdaHandler_init_failure_is_final
    (Marshal_event : events.CloudWatchEvent -> string * error)
    (Error : error_value -> string)
    (env : gmap string string) (evt : events.CloudWatchEvent)
    (reqs : list (gmap string string * events.CloudWatchEvent))
    (w : World) (err : error_value) :
  snd (BuildConfig env) = Some err ->
  invocations Marshal_event Error ((env, evt) :: reqs) global.zero w =
    (replicate (S (length reqs)) (Return (Some err)), failed err, w).
Proof.
  intros Hcfg. cbn [invocations]. unfold bind at 1.
  rewrite LambdaHandler_run, once_Do_first.
  destruct (BuildConfig env) as [c e]. cbn [snd] in Hcfg. subst e.
  cbn [failed global.initErr]. unfold bind.
  rewrite invocations_failed. reflexivity.
Qed.

Lemma LambdaHandler_init_failure_is_final_witness :
  invocations (fun _ => ("{}", nil)) (fun _ => "error")
    [(∅, {| events.ID := "evt-1"; events.Detail := sample_payload |});
     (<["APP_SLACK_TOKEN" := "xoxb-token"]>
        (<["APP_SLACK_CHANNEL" := "C000XXXXXXX"]>
           (<["APP_AWS_CONSOLE_URL" :=
                "https://us-east-1.console.aws.amazon.com"]> ∅)),
      {| events.ID := "evt-2"; events.Detail := sample_payload |})]
    global.zero quiet_world =
  ([Return (Some (errors_New "missing env var APP_SLACK_TOKEN"));
    Return (Some (errors_New "missing env var APP_SLACK_TOKEN"))],
   failed (errors_New "missing env var APP_SLACK_TOKEN"), quiet_world).
Proof.
  apply (LambdaHandler_init_failure_is_final
           (fun _ => ("{}", nil)) (fun _ => "error") ∅).
  reflexivity.
Defined.

(** X15.  A configuration is built once.  When it is built at the first
    call of the handler, that call and every later call in the process,
    whatever the environment has become, returns what [Process] returns for
    the application of that configuration and sends what it sends. *)
Theorem LambdaHandler_config_is_built_once
    (Marshal_event : events.CloudWatchEvent -> string * error)
    (Error : error_value -> string)
    (env : gmap string string) (evt : events.CloudWatchEvent)
    (w : World) (c : Config) :
  BuildConfig env = (c, nil) ->
  fst (LambdaHandler Marshal_event Error env evt global.zero w) =
    (Return (fst (Process (NewApp c) (events.Detail evt) w)), initialised c) /\
  posted (snd (LambdaHandler Marshal_event Error env evt global.zero w)) =
    posted (snd (Process (NewApp c) (events.Detail evt) w)) /\
  forall env' evt' w',
    fst (LambdaHandler Marshal_event Error env' evt' (initialised c) w') =
      (Return (fst (Process (NewApp c) (events.Detail evt') w')),
       initialised c) /\
    posted (snd (LambdaHandler Marshal_event Error env' evt' (initialised c) w'))
    = posted (snd (Process (NewApp c) (events.Detail evt') w')).
Proof.
  intros Hcfg.
  assert (Hcall : forall env0 evt0 g w0,
             once_Do (initialise env0) g = initialised c ->
             fst (LambdaHandler Marshal_event Error env0 evt0 g w0) =
               (Return (fst (Process (NewApp c) (events.Detail evt0) w0)),
                initialised c) /\
             posted (snd (LambdaHandler Marshal_event Error env0 evt0 g w0)) =
               posted (snd (Process (NewApp c) (events.Detail evt0) w0))).
  { intros env0 evt0 g w0 Hg. rewrite LambdaHandler_run, Hg.
    cbn [initialised global.initErr global.app nil fst snd].
    destruct (after_dump_frame Marshal_event Error evt0 w0)
      as (Hapi & _ & Hposted & _).
    destruct (Process_frame (NewApp c) (events.Detail evt0) _ w0 Hapi Hposted)
      as (Hres & Hsent).
    rewrite Hres. split; [reflexivity | exact Hsent]. }
  split; [| split].
  - apply Hcall. rewrite once_Do_first, Hcfg. reflexivity.
  - apply Hcall. rewrite once_Do_first, Hcfg. reflexivity.
  - intros env' evt' w'. apply Hcall. apply once_Do_again. reflexivity.
Qed.

Lemma LambdaHandler_config_is_built_once_witness :
  BuildConfig sample_env = (sample_cfg, nil) /\
  fst (LambdaHandler sample_marshal sample_Error ∅ sample_event
         (initialised sample_cfg) quiet_world) =
    (Return nil, initialised sample_cfg).
Proof.
  assert (Hcfg : BuildConfig sample_env = (sample_cfg, nil))
    by (vm_compute; reflexivity).
  split; [exact Hcfg |].
  destruct (LambdaHandler_config_is_built_once sample_marshal sample_Error
              sample_env sample_event quiet_world sample_cfg Hcfg)
    as (_ & _ & Hlater).
  destruct (Hlater ∅ sample_event quiet_world) as (Hres & _).
  rewrite Hres. reflexivity.
Defined.

(** The handler does not panic when the variables are as [once.Do] leaves
    them, and it leaves them so. *)
Lemma LambdaHandler_ready
    (Marshal_event : events.CloudWatchEvent -> string * error)
    (Error : error_value -> string)
    (env : gmap string string) (evt : events.CloudWatchEvent)
    (g : global.vars) (w : World) :
  (global.once g = true -> global.initErr g = nil -> global.app g <> None) ->
  fst (fst (LambdaHandler Marshal_event Error env evt g w)) <> Panic /\
  global.once (snd (fst (LambdaHandler Marshal_event Error env evt g w)))
  = true /\
  (global.initErr (snd (fst (LambdaHandler Marshal_event Error env evt g w)))
   = nil ->
   global.app (snd (fst (LambdaHandler Marshal_event Error env evt g w)))
   <> None).
Proof.
  intros Hready.
  assert (Hg : global.once (once_Do (initialise env) g) = true /\
               (global.initErr (once_Do (initialise env) g) = nil ->
                global.app (once_Do (initialise env) g) <> None)).
  { unfold once_Do. destruct (global.once g) eqn:Honce.
    - split; [exact Honce | apply Hready; reflexivity].
    - cbn [global.once global.initErr global.app]. split; [reflexivity |].
      unfold initialise. destruct (BuildConfig env) as [c [err |]];
        cbn [global.initErr global.app]; intros H; discriminate. }
  destruct Hg as (Honce & Happ).
  rewrite LambdaHandler_run. cbv zeta.
  destruct (global.initErr (once_Do (initialise env) g)) as [err |] eqn:Herr.
  - cbn [fst snd]. rewrite Herr. repeat split; try discriminate. exact Honce.
  - destruct (global.app (once_Do (initialise env) g)) as [a |] eqn:Ha.
    + cbn [fst snd]. rewrite Ha. repeat split; try discriminate. exact Honce.
    + destruct (Happ eq_refl eq_refl).
Qed.

(** X16.  The handler never dereferences a nil application: in a process
    that starts with the variables unset, whatever the requests and the
    environments are, every request is answered by a return, never by a
    panic. *)
Theorem invocations_never_panic
    (Marshal_event : events.CloudWatchEvent -> string * error)
    (Error : error_value -> string)
    (reqs : list (gmap string string * events.CloudWatchEvent))
    (w : World) :
  ~ In Panic (fst (fst (invocations Marshal_event Error reqs global.zero w))) /\
  length (fst (fst (invocations Marshal_event Error reqs global.zero w)))
  = length reqs.
Proof.
  assert (Hgen : forall rs g w0,
             (global.once g = true -> global.initErr g = nil ->
              global.app g <> None) ->
             ~ In Panic (fst (fst (invocations Marshal_event Error rs g w0))) /\
             length (fst (fst (invocations Marshal_event Error rs g w0)))
             = length rs).
  { induction rs as [| [env evt] rest IH]; intros g w0 Hready.
    - split; [intros [] | reflexivity].
    - cbn [invocations]. unfold bind.
      destruct (LambdaHandler_ready Marshal_event Error env evt g w0 Hready)
        as (Hnopanic & Honce & Happ).
      destruct (LambdaHandler Marshal_event Error env evt g w0)
        as [[out g'] w1]. cbn [fst snd] in *.
      destruct out as [err |]; [| destruct (Hnopanic eq_refl)].
      destruct (IH g' w1 (fun _ => Happ)) as (Hrest & Hlen).
      unfold bind, ret.
      destruct (invocations Marshal_event Error rest g' w1) as [[outs g''] w2].
      cbn [fst snd length In] in *. split; [| lia].
      intros [Hhead | Htail]; [discriminate | exact (Hrest Htail)]. }
  apply Hgen. cbn. discriminate.
Qed.

(** X17.  Marshalling the event serves the log only.  Whether it fails or
    succeeds, and whatever it yields, the handler returns the same, leaves
    the same variables and sends the same to Slack. *)
Theorem LambdaHandler_marshal_is_observational
    (Marshal_event Marshal_event' : events.CloudWatchEvent -> string * error)
    (Error Error' : error_value -> string)
    (env : gmap string string) (evt : events.CloudWatchEvent)
    (g : global.vars) (w : World) :
  fst (LambdaHandler Marshal_event Error env evt g w) =
  fst (LambdaHandler Marshal_event' Error' env evt g w) /\
  posted (snd (LambdaHandler Marshal_event Error env evt g w)) =
  posted (snd (LambdaHandler Marshal_event' Error' env evt g w)).
Proof.
  rewrite !LambdaHandler_run. cbv zeta.
  destruct (after_dump_frame Marshal_event Error evt w)
    as (Hapi & _ & Hposted & _).
  destruct (after_dump_frame Marshal_event' Error' evt w)
    as (Hapi' & _ & Hposted' & _).
  destruct (global.initErr (once_Do (initialise env) g));
    [split; reflexivity |].
  destruct (global.app (once_Do (initialise env) g)) as [a |];
    cbn [fst snd].
  - destruct (Process_frame a (events.Detail evt)
                (after_dump Marshal_event Error evt w)
                (after_dump Marshal_event' Error' evt w))
      as (Hres & Hsent); [congruence | congruence |].
    rewrite Hres. split; [reflexivity | exact Hsent].
  - split; [reflexivity | congruence].
Qed.

(** X18.  The event is dumped to the log whenever the initialisation has
    succeeded, with debug logging enabled or not: after the call, the log
    has a line that is the marshalled event. *)
Theorem LambdaHandler_always_dumps
    (Marshal_event : events.CloudWatchEvent -> string * error)
    (Error : error_value -> string)
    (env : gmap string string) (evt : events.CloudWatchEvent)
    (g : global.vars) (w : World) :
  global.initErr (snd (fst (LambdaHandler Marshal_event Error env evt g w)))
  = nil ->
  exists before after,
    logged (snd (LambdaHandler Marshal_event Error env evt g w)) =
      logged w ++ before
      ++ [{| log_format := "%s";
             log_args := [ArgString (fst (Marshal_event evt))] |}]
      ++ after.
Proof.
  rewrite LambdaHandler_run. cbv zeta.
  destruct (after_dump_frame Marshal_event Error evt w)
    as (_ & _ & _ & lines & Hlogged).
  destruct (global.initErr (once_Do (initialise env) g)) as [err |] eqn:Herr.
  { cbn [fst snd]. rewrite Herr. discriminate. }
  intros _.
  destruct (global.app (once_Do (initialise env) g)) as [a |]; cbn [fst snd].
  - destruct (Process_logged a (events.Detail evt)
                (after_dump Marshal_event Error evt w)) as (more & Hmore).
    exists lines, more. rewrite Hmore, Hlogged.
    rewrite <- !app_assoc. reflexivity.
  - exists lines, []. rewrite Hlogged, app_nil_r. reflexivity.
Qed.

Lemma LambdaHandler_always_dumps_witness :
  BuildConfig sample_env = (sample_cfg, nil) /\
  DebugEnabled sample_cfg = false /\
  exists before after,
    logged (snd (LambdaHandler sample_marshal sample_Error sample_env
                   sample_event global.zero quiet_world)) =
      logged quiet_world ++ before
      ++ [{| log_format := "%s"; log_args := [ArgString "{...}"] |}]
      ++ after.
Proof.
  split; [vm_compute; reflexivity |]. split; [reflexivity |].
  apply (LambdaHandler_always_dumps sample_marshal sample_Error sample_env
           sample_event global.zero quiet_world).
  vm_compute. reflexivity.
Defined.

(* ------------------------------------------------------------------------ *)
(** ** The sample run *)

(** X19.  [TestWithSamples] builds the configuration from the environment
    that the load of [.env] leaves, the load being attempted only when
    [os.Stat] finds the file.  If the configuration cannot be built the run
    ends in [log.Fatal]: the error of [BuildConfig] is the one line logged,
    the samples are not replayed and nothing is sent.  If it can be built,
    the run sends what [ProcessSamples] sends for the application of that
    configuration, and it ends in [log.Fatal] exactly when [ProcessSamples]
    returns an error. *)
Theorem TestWithSamples_outcome
    (Error : error_value -> string)
    (Unmarshal_events : string -> list events.CloudWatchEvent * error)
    (os_Stat : World -> string -> error)
    (godotenv_Load :
       string -> World -> gmap string string -> gmap string string)
    (env env' : gmap string string) (w : World) :
  env' = match os_Stat w ".env" with
         | None => godotenv_Load ".env" w env
         | Some _ => env
         end ->
  (forall err,
     snd (BuildConfig env') = Some err ->
     fst (TestWithSamples Error Unmarshal_events os_Stat godotenv_Load env w)
     = Fatal /\
     posted
       (snd (TestWithSamples Error Unmarshal_events os_Stat godotenv_Load env w))
     = posted w /\
     logged
       (snd (TestWithSamples Error Unmarshal_events os_Stat godotenv_Load env w))
     = logged w ++ [{| log_format := "%s";
                       log_args := [ArgString (Error err)] |}]) /\
  (forall c,
     BuildConfig env' = (c, nil) ->
     (fst (TestWithSamples Error Unmarshal_events os_Stat godotenv_Load env w)
      = Fatal <->
      fst (ProcessSamples Unmarshal_events (NewApp c) w) <> nil) /\
     posted
       (snd (TestWithSamples Error Unmarshal_events os_Stat godotenv_Load env w))
     = posted (snd (ProcessSamples Unmarshal_events (NewApp c) w))).
Proof.
  intros Henv. unfold TestWithSamples. rewrite <- Henv. split.
  - intros err Herr. destruct (BuildConfig env') as [c e].
    cbn [snd] in Herr. subst e. repeat split.
  - intros c ->. unfold bind.
    destruct (ProcessSamples Unmarshal_events (NewApp c) w) as [[err |] w'];
      cbn [fst snd log_Fatal log_Print log_Printf ret posted].
    + split; [| reflexivity]. split; [discriminate | reflexivity].
    + split; [| reflexivity].
      split; [discriminate | intros H; destruct (H eq_refl)].
Qed.

Lemma TestWithSamples_outcome_witness :
  fst (TestWithSamples sample_Error sample_decoder
         (fun _ _ => Some (ClientError "no such file")) (fun _ _ e => e)
         ∅ samples_world) = Fatal /\
  logged (snd (TestWithSamples sample_Error sample_decoder
                 (fun _ _ => Some (ClientError "no such file"))
                 (fun _ _ e => e) ∅ samples_world))
  = [{| log_format := "%s";
        log_args := [ArgString "missing env var APP_SLACK_TOKEN"] |}].
Proof.
  destruct (TestWithSamples_outcome sample_Error sample_decoder
              (fun _ _ => Some (ClientError "no such file")) (fun _ _ e => e)
              ∅ ∅ samples_world eq_refl) as (Hfatal & _).
  destruct (Hfatal (errors_New "missing env var APP_SLACK_TOKEN") eq_refl)
    as (Hres & _ & Hlog).
  split; [exact Hres | exact Hlog].
Defined.

(* ------------------------------------------------------------------------ *)
(** ** The order of the messages *)

Lemma succeeds_posted_in_order (a : App)
    (evs : list events.CloudWatchEvent) (w w' : World) :
  succeeds a evs w w' ->
  posted w' =
    posted w ++
    List.map
      (fun e => expected_call a (fst (ParseFindingData a (events.Detail e))))
      evs.
Proof.
  induction 1 as [w | e rest w w1 w2 Hp _ IH].
  - cbn [List.map]. rewrite app_nil_r. reflexivity.
  - rewrite IH. cbn [List.map].
    rewrite Process_unfold in Hp.
    destruct (ParseFindingData a (events.Detail e)) as [f [err |]];
      [discriminate |].
    injection Hp as _ <-. cbn [posted fst].
    rewrite <- app_assoc. reflexivity.
Qed.

(** X20.  A replay that goes through sends the messages in the order of
    the events of the samples file: after it, Slack has received, after
    what it had received before, exactly one message per event, each the
    message of the finding parsed from that event, in list order. *)
Theorem ProcessSamples_sends_in_order
    (Unmarshal_events : string -> list events.CloudWatchEvent * error)
    (a : App) (w w' : World) (data : string)
    (evs : list events.CloudWatchEvent) :
  files w "fixtures/samples.json" = (data, nil) ->
  Unmarshal_events data = (evs, nil) ->
  ProcessSamples Unmarshal_events a w = (nil, w') ->
  posted w' =
    posted w ++
    List.map
      (fun e => expected_call a (fst (ParseFindingData a (events.Detail e))))
      evs.
Proof.
  intros Hread Hdecode Hrun.
  rewrite (ProcessSamples_run _ a w data evs Hread Hdecode) in Hrun.
  destruct (process_range_cases a evs w)
    as [(w1 & Hs) | (pre & e & post & w1 & c & w2 & -> & Hs & Hf)].
  - rewrite (process_range_succeeds a evs w w1 Hs) in Hrun.
    injection Hrun as <-. apply succeeds_posted_in_order. exact Hs.
  - rewrite (process_range_stops a pre e post w w1 w2 c Hs Hf) in Hrun.
    discriminate.
Qed.

Lemma ProcessSamples_sends_in_order_witness :
  posted
    (snd (ProcessSamples
            (fun _ => ([sample_event;
                        {| events.ID := "evt-3";
                           events.Detail := payload_without_id |}], nil))
            sample_app samples_world)) =
  [expected_call sample_app sample_parsed;
   expected_call sample_app
     (fst (ParseFindingData sample_app payload_without_id))].
Proof.
  apply (ProcessSamples_sends_in_order
           (fun _ =>
              ([sample_event;
                {| events.ID := "evt-3"; events.Detail := payload_without_id |}],
               nil))
           sample_app samples_world _ "[...]"
           [sample_event;
            {| events.ID := "evt-3"; events.Detail := payload_without_id |}]);
    vm_compute; reflexivity.
Defined.
